(** * Review lifecycle and seller-rating aggregation

    A shallow embedding of [ReviewService] (createReview, getSellerStats,
    getSellerReviews, addReplyToReview, reportReview, deleteReview) and of the
    [Review] entity it works on.

    - The three TypeORM repositories are tables (lists of rows); a query is
      modelled by what its SQL means (filter, count, average, order, offset
      and limit) on the store the entity is written for, PostgreSQL: an
      alias written without quotes comes back in lower case, a negative
      OFFSET or LIMIT is refused, and so is a key outside the 32-bit key
      column.  A zero skip or take is no setting to the query builder.
    - An [async] method is a state-passing computation over the tables that
      either resolves or throws [Error(message)]; the store may reject a
      write, and what was written before stays written.
    - A review row has the columns the entity declares.  The object the
      service holds may carry more (see [ReviewObject]). *)

From Stdlib Require Import Ascii String.
From Stdlib Require Import ZArith List Bool Lia QArith.
From Stdlib Require Import Orders Sorting.Sorted Sorting.Permutation Sorting.Mergesort.
Import ListNotations.
Local Open Scope Z_scope.

(** ** Entities *)

(** JavaScript numbers used as identifiers, ratings, page numbers and
    timestamps are integers here.  A relation ([ManyToOne]) is held by the
    primary key of the row it points to, which is all the service ever reads
    from it ([review.seller.id]). *)

Module Reply.
(** The value of the [reply] column: [{ comment, createdAt }]. *)
Record t := mk {
  comment : string;
  createdAt : Z }.
End Reply.

Module Review.
(** The entity, column by column. *)
Record t := mk {
  id : Z;
  buyer : option Z;
  seller : Z;
  rating : Z;
  comment : string;
  reply : option Reply.t;
  reported : bool;
  reportReason : option string;
  reporterId : option Z;
  createdAt : Z;
  updatedAt : Z }.
End Review.

(** A [Review] instance in the hands of the service: the entity, and the two
    properties [buyerReviewer] and [sellerReviewer] that createReview assigns
    and deleteReview tests.  The entity declares neither of them as a column
    or relation, so they exist on the object in memory only. *)
Record ReviewObject := mkObject {
  entity : Review.t;
  buyerReviewer : option Z;
  sellerReviewer : option Z }.

Module SellerProfile.
(** Only the fields the service touches: the key, the owning user and the
    denormalised review counter. *)
Record t := mk {
  id : Z;
  userId : Z;
  numReviews : Z }.
End SellerProfile.

Module User.
(** A user with its two optional profiles (each held by its key). *)
Record t := mk {
  id : Z;
  buyerProfile : option Z;
  sellerProfile : option Z }.
End User.

Module CreateReviewDto.
Record t := mk {
  sellerId : Z;
  reviewerId : Z;
  rating : Z;
  comment : string }.
End CreateReviewDto.

(** ** The store *)

Record Db := mkDb {
  reviewRepository : list Review.t;
  userRepository : list User.t;
  sellerRepository : list SellerProfile.t;
  nextReviewId : Z }.

(** The write statements the service issues.  An [Outage] tells which of
    them the store rejects; reads never alter the store and are not listed. *)
Inductive StoreWrite := InsertReview | UpdateReview | RemoveReview | UpdateCounter.

Definition Outage := StoreWrite -> bool.

Definition no_outage : Outage := fun _ => false.

Definition counter_update_fails : Outage :=
  fun w => match w with UpdateCounter => true | _ => false end.

(** ** Promises: state passing with thrown errors *)

Inductive Result (A : Type) :=
| Ok (a : A)
| Err (message : string).

Arguments Ok {A} a.
Arguments Err {A} message.

Definition Task (A : Type) := Db -> Db * Result A.

Definition ret {A} (a : A) : Task A := fun db => (db, Ok a).

Definition throw {A} (message : string) : Task A := fun db => (db, Err message).

Definition bind {A B} (c : Task A) (k : A -> Task B) : Task B :=
  fun db =>
    match c db with
    | (db', Ok a) => k a db'
    | (db', Err m) => (db', Err m)
    end.

Notation "x <- c ;; k" := (bind c (fun x => k))
  (at level 100, c at next level, right associativity).

Definition queryFailed : string := "QueryFailedError"%string.

(** ** What each write statement does to the tables *)

Definition stamp (newId now : Z) (r : Review.t) : Review.t :=
  Review.mk newId (Review.buyer r) (Review.seller r) (Review.rating r)
    (Review.comment r) (Review.reply r) (Review.reported r)
    (Review.reportReason r) (Review.reporterId r) now now.

Definition touch (now : Z) (r : Review.t) : Review.t :=
  Review.mk (Review.id r) (Review.buyer r) (Review.seller r) (Review.rating r)
    (Review.comment r) (Review.reply r) (Review.reported r)
    (Review.reportReason r) (Review.reporterId r) (Review.createdAt r) now.

(** INSERT: the generated key and both date columns are filled in, and the
    row is appended. *)
Definition inserted (now : Z) (r : Review.t) (db : Db) : Db :=
  mkDb (reviewRepository db ++ [stamp (nextReviewId db) now r])
       (userRepository db) (sellerRepository db) (nextReviewId db + 1).

Definition rewriteRow (saved : Review.t) (x : Review.t) : Review.t :=
  if Review.id x =? Review.id saved then saved else x.

(** UPDATE ... WHERE id = :id, refreshing the update date. *)
Definition rewritten (now : Z) (r : Review.t) (db : Db) : Db :=
  mkDb (map (rewriteRow (touch now r)) (reviewRepository db))
       (userRepository db) (sellerRepository db) (nextReviewId db).

Definition otherThan (r : Review.t) (x : Review.t) : bool :=
  negb (Review.id x =? Review.id r).

(** DELETE ... WHERE id = :id. *)
Definition removed (r : Review.t) (db : Db) : Db :=
  mkDb (filter (otherThan r) (reviewRepository db))
       (userRepository db) (sellerRepository db) (nextReviewId db).

Definition bump (sellerKey delta : Z) (s : SellerProfile.t) : SellerProfile.t :=
  if SellerProfile.id s =? sellerKey
  then SellerProfile.mk (SellerProfile.id s) (SellerProfile.userId s)
         (SellerProfile.numReviews s + delta)
  else s.

(** [UPDATE seller SET numReviews = numReviews + delta WHERE id = :sellerId]. *)
Definition counted (sellerKey delta : Z) (db : Db) : Db :=
  mkDb (reviewRepository db) (userRepository db)
       (map (bump sellerKey delta) (sellerRepository db))
       (nextReviewId db).

(** ** Repository calls *)

Definition findSellerByUserId (uid : Z) : Task (option SellerProfile.t) :=
  fun db => (db, Ok (find (fun s => SellerProfile.userId s =? uid) (sellerRepository db))).

Definition findUser (uid : Z) : Task (option User.t) :=
  fun db => (db, Ok (find (fun u => User.id u =? uid) (userRepository db))).

Definition lookupReview (reviewId : Z) (db : Db) : option Review.t :=
  find (fun r => Review.id r =? reviewId) (reviewRepository db).

(** An instance made from the entity's columns alone: what [create] and
    [findOne] build.  The relations findOne is asked for ([seller], [buyer])
    are columns of the row here. *)
Definition instance (row : Review.t) : ReviewObject := mkObject row None None.

(** The key column ([PrimaryGeneratedColumn], a 32-bit integer column). *)
Definition inKeyRange (key : Z) : bool :=
  (-2147483648 <=? key) && (key <=? 2147483647).

(** [findOne({ where: { id } })].  The store compares the key column with
    the number it is given; a number outside the column's range is refused
    with an error of the store's own instead of finding no row.  No row of a
    table holds such a key, so which of the two tests comes first does not
    show. *)
Definition findReview (reviewId : Z) : Task (option ReviewObject) :=
  fun db =>
    match lookupReview reviewId db with
    | Some row => (db, Ok (Some (instance row)))
    | None =>
      if inKeyRange reviewId then (db, Ok None) else (db, Err queryFailed)
    end.

(** [reviewRepository.create({ seller, rating, comment })]: every other
    column is left to its default. *)
Definition create (seller rating : Z) (comment : string) : ReviewObject :=
  instance (Review.mk 0 None seller rating comment None false None None 0 0).

(** The same object with its entity columns changed. *)
Definition onEntity (f : Review.t -> Review.t) (review : ReviewObject) : ReviewObject :=
  mkObject (f (entity review)) (buyerReviewer review) (sellerReviewer review).

(** [save] of a fresh instance.  The columns of the entity are written; the
    object handed back is the one passed in, with key and dates filled in. *)
Definition insert (o : Outage) (now : Z) (review : ReviewObject) : Task ReviewObject :=
  fun db =>
    if o InsertReview then (db, Err queryFailed)
    else (inserted now (entity review) db,
          Ok (onEntity (stamp (nextReviewId db) now) review)).

(** [save] of a loaded instance. *)
Definition update (o : Outage) (now : Z) (review : ReviewObject) : Task ReviewObject :=
  fun db =>
    if o UpdateReview then (db, Err queryFailed)
    else (rewritten now (entity review) db, Ok (onEntity (touch now) review)).

Definition remove (o : Outage) (review : ReviewObject) : Task unit :=
  fun db =>
    if o RemoveReview then (db, Err queryFailed)
    else (removed (entity review) db, Ok tt).

Definition addToNumReviews (o : Outage) (sellerKey delta : Z) : Task unit :=
  fun db =>
    if o UpdateCounter then (db, Err queryFailed)
    else (counted sellerKey delta db, Ok tt).

(** ** ReviewService *)

Definition setBuyerReviewer (b : Z) (review : ReviewObject) : ReviewObject :=
  mkObject (entity review) (Some b) (sellerReviewer review).

Definition setSellerReviewer (s : Z) (review : ReviewObject) : ReviewObject :=
  mkObject (entity review) (buyerReviewer review) (Some s).

Definition setReply (rp : Reply.t) (r : Review.t) : Review.t :=
  Review.mk (Review.id r) (Review.buyer r) (Review.seller r) (Review.rating r)
    (Review.comment r) (Some rp) (Review.reported r)
    (Review.reportReason r) (Review.reporterId r) (Review.createdAt r)
    (Review.updatedAt r).

Definition setReport (reason : string) (reporter : Z) (r : Review.t) : Review.t :=
  Review.mk (Review.id r) (Review.buyer r) (Review.seller r) (Review.rating r)
    (Review.comment r) (Review.reply r) true
    (Some reason) (Some reporter) (Review.createdAt r)
    (Review.updatedAt r).

(** [a || b] on two possibly missing objects. *)
Definition orElse {A} (a b : option A) : option A :=
  match a with Some _ => a | None => b end.

Definition ratingError : string := "Rating must be between 1 and 5"%string.
Definition sellerNotFound : string := "Seller not found"%string.
Definition userNotFound : string := "User not found"%string.
Definition profileError : string :=
  "User must have either a buyer or seller profile to leave a review"%string.
Definition reviewNotFound : string := "Review not found"%string.
Definition notTheSeller : string := "Only the seller can reply to this review"%string.
Definition alreadyReplied : string := "Review already has a reply"%string.
Definition notTheReviewer : string := "Only the reviewer can delete this review"%string.

(** The error a request meets on an id that no stored review has. *)
Definition missingReview (reviewId : Z) : string :=
  if inKeyRange reviewId then reviewNotFound else queryFailed.

(** The instance createReview builds before saving: [create], then the
    reviewer property that applies. *)
Definition reviewOf (s : SellerProfile.t) (u : User.t) (data : CreateReviewDto.t)
  : ReviewObject :=
  let review :=
    create (SellerProfile.id s) (CreateReviewDto.rating data) (CreateReviewDto.comment data) in
  match User.buyerProfile u with
  | Some b => setBuyerReviewer b review
  | None =>
    match User.sellerProfile u with
    | Some k => setSellerReviewer k review
    | None => review
    end
  end.

Definition createReview (o : Outage) (now : Z) (data : CreateReviewDto.t)
  : Task ReviewObject :=
  let rating := CreateReviewDto.rating data in
  if (rating <? 1) || (rating >? 5) then throw ratingError
  else
    seller <- findSellerByUserId (CreateReviewDto.sellerId data) ;;
    match seller with
    | None => throw sellerNotFound
    | Some seller =>
      reviewerUser <- findUser (CreateReviewDto.reviewerId data) ;;
      match reviewerUser with
      | None => throw userNotFound
      | Some reviewerUser =>
        match orElse (User.buyerProfile reviewerUser) (User.sellerProfile reviewerUser) with
        | None => throw profileError
        | Some _ =>
          let review := reviewOf seller reviewerUser data in
          savedReview <- insert o now review ;;
          _ <- addToNumReviews o (SellerProfile.id seller) 1 ;;
          ret savedReview
        end
      end
    end.

(** The rows selected by [WHERE review.sellerId = :sellerId]. *)
Definition forSeller (sellerKey : Z) (rows : list Review.t) : list Review.t :=
  filter (fun r => Review.seller r =? sellerKey) rows.

Definition sumRatings (rows : list Review.t) : Z :=
  fold_right (fun r acc => Review.rating r + acc) 0 rows.

(** [COUNT( * )] and [AVG(rating)]; the average of no row is NULL.  The
    average is kept as an exact fraction. *)
Record RawStats := mkRaw {
  raw_totalReviews : Z;
  raw_averageRating : option Q }.

Definition aggregate (rows : list Review.t) : RawStats :=
  mkRaw (Z.of_nat (length rows))
        (match rows with
         | [] => None
         | _ :: _ => Some (sumRatings rows # Pos.of_nat (length rows))
         end).

(** The store folds an identifier written without quotes to lower case, and
    [as totalReviews] and [as averageRating] are written without quotes. *)
Definition lowerAscii (c : ascii) : ascii :=
  let n := nat_of_ascii c in
  if ((65 <=? n) && (n <=? 90))%nat then ascii_of_nat (n + 32) else c.

Fixpoint foldCase (s : string) : string :=
  match s with
  | EmptyString => EmptyString
  | String c rest => String (lowerAscii c) (foldCase rest)
  end.

(** A raw result row: the values of the selected expressions under the
    column names the store answers with. *)
Inductive RawValue :=
| RawNull
| RawNumber (q : Q).

Definition RawRow := list (string * RawValue).

(** [getRawOne()] of [SELECT COUNT( * ) as totalReviews, AVG(review.rating)
    as averageRating]. *)
Definition getRawOne (rows : list Review.t) : RawRow :=
  let columns := aggregate rows in
  [ (foldCase "totalReviews", RawNumber (inject_Z (raw_totalReviews columns)));
    (foldCase "averageRating",
     match raw_averageRating columns with
     | Some q => RawNumber q
     | None => RawNull
     end) ].

(** [row.key]: the value under that very key, [undefined] (here [None])
    when the row has no such key. *)
Fixpoint property (key : string) (row : RawRow) : option RawValue :=
  match row with
  | [] => None
  | (k, v) :: rest => if String.eqb k key then Some v else property key rest
  end.

Inductive JsNumber :=
| NaN
| Num (q : Q).

(** [Number(x)]: NaN of [undefined], 0 of [null]. *)
Definition Number (x : option RawValue) : JsNumber :=
  match x with
  | None => NaN
  | Some RawNull => Num 0
  | Some (RawNumber q) => Num q
  end.

(** [n || 0]: NaN and 0 are the falsy numbers. *)
Definition orZero (n : JsNumber) : Q :=
  match n with
  | NaN => 0%Q
  | Num q => if Qeq_bool q 0 then 0%Q else q
  end.

Record SellerStats := mkStats {
  averageRating : Q;
  totalReviews : Q }.

Definition getSellerStats (sellerKey : Z) (db : Db) : SellerStats :=
  let reviews := getRawOne (forSeller sellerKey (reviewRepository db)) in
  mkStats (orZero (Number (property "averageRating" reviews)))
          (orZero (Number (property "totalReviews" reviews))).

(** [ORDER BY review.createdAt DESC]. *)
Module NewestFirst <: TotalLeBool.
Definition t := Review.t.
Definition leb (x y : t) : bool := Review.createdAt y <=? Review.createdAt x.
Lemma leb_total : forall x y, leb x y = true \/ leb y x = true.
Proof. intros x y. unfold leb. lia. Qed.
End NewestFirst.

Module ByDate := Sort NewestFirst.

Definition orderByCreatedAtDesc (rows : list Review.t) : list Review.t :=
  ByDate.sort rows.

Record ReviewPage := mkPage {
  reviews : list Review.t;
  total : Z;
  hasMore : bool }.

Definition negativeOffset : string := "OFFSET must not be negative"%string.
Definition negativeLimit : string := "LIMIT must not be negative"%string.

(** [skip(n).take(m)] on the joined query.  A zero is no setting at all to
    the query builder: without a skip no OFFSET is issued, without a take no
    LIMIT.  The store (PostgreSQL, as the entity's jsonb column requires)
    refuses a negative OFFSET or LIMIT with an error of its own. *)
Definition skipTake {A} (skip take : Z) (rows : list A) : Result (list A) :=
  if skip <? 0 then Err negativeOffset
  else if take <? 0 then Err negativeLimit
  else
    let fromOffset := skipn (Z.to_nat skip) rows in
    Ok (if take =? 0 then fromOffset else firstn (Z.to_nat take) fromOffset).

(** [page] and [limit] default to 1 and 5 when the caller leaves them out. *)
Definition getSellerReviews (sellerKey page limit : Z) (db : Db) : Result ReviewPage :=
  let selected := forSeller sellerKey (reviewRepository db) in
  match skipTake ((page - 1) * limit) limit (orderByCreatedAtDesc selected) with
  | Err m => Err m
  | Ok reviews =>
    let total := Z.of_nat (length selected) in
    Ok (mkPage reviews total (total >? page * limit))
  end.

Definition addReplyToReview (o : Outage) (now : Z) (reviewId sellerKey : Z)
  (comment : string) : Task ReviewObject :=
  review <- findReview reviewId ;;
  match review with
  | None => throw reviewNotFound
  | Some review =>
    if negb (Review.seller (entity review) =? sellerKey) then throw notTheSeller
    else
      match Review.reply (entity review) with
      | Some _ => throw alreadyReplied
      | None => update o now (onEntity (setReply (Reply.mk comment now)) review)
      end
  end.

Definition reportReview (o : Outage) (now : Z) (reviewId reporter : Z)
  (reason : string) : Task ReviewObject :=
  review <- findReview reviewId ;;
  match review with
  | None => throw reviewNotFound
  | Some review => update o now (onEntity (setReport reason reporter) review)
  end.

(** [x && x.id !== userId] on a possibly missing reviewer. *)
Definition differsFrom (reviewer : option Z) (userId : Z) : bool :=
  match reviewer with
  | Some k => negb (k =? userId)
  | None => false
  end.

Definition deleteReview (o : Outage) (reviewId userId : Z) : Task unit :=
  review <- findReview reviewId ;;
  match review with
  | None => throw reviewNotFound
  | Some review =>
    if differsFrom (buyerReviewer review) userId
       || differsFrom (sellerReviewer review) userId
    then throw notTheReviewer
    else
      _ <- remove o review ;;
      addToNumReviews o (Review.seller (entity review)) (-1)
  end.

(** Every method of the service, as a request. *)
Inductive Call :=
| CreateReview (data : CreateReviewDto.t)
| GetSellerStats (sellerKey : Z)
| GetSellerReviews (sellerKey page limit : Z)
| AddReplyToReview (reviewId sellerKey : Z) (comment : string)
| ReportReview (reviewId reporter : Z) (reason : string)
| DeleteReview (reviewId userId : Z).

(** The store a request leaves behind, whether it resolved or threw. *)
Definition exec (o : Outage) (now : Z) (c : Call) (db : Db) : Db :=
  match c with
  | CreateReview data => fst (createReview o now data db)
  | GetSellerStats _ => db
  | GetSellerReviews _ _ _ => db
  | AddReplyToReview reviewId sellerKey comment =>
    fst (addReplyToReview o now reviewId sellerKey comment db)
  | ReportReview reviewId reporter reason =>
    fst (reportReview o now reviewId reporter reason db)
  | DeleteReview reviewId userId => fst (deleteReview o reviewId userId db)
  end.

Fixpoint run (trace : list (Outage * Z * Call)) (db : Db) : Db :=
  match trace with
  | [] => db
  | (o, now, c) :: rest => run rest (exec o now c db)
  end.

(** ** Predicates used in the statements *)

(** The reviewer identity an instance carries: the buyer-role one when set,
    otherwise the seller-role one. *)
Definition recordedReviewer (review : ReviewObject) : option Z :=
  orElse (buyerReviewer review) (sellerReviewer review).

Definition reviewCount (sellerKey : Z) (db : Db) : Z :=
  Z.of_nat (length (forSeller sellerKey (reviewRepository db))).

(** The aggregate counter of every seller row agrees with the stored rows. *)
Definition counters_ok (db : Db) : Prop :=
  forall s, In s (sellerRepository db) ->
    SellerProfile.numReviews s = reviewCount (SellerProfile.id s) db.

(** Primary keys are unique and were all handed out by the generator. *)
Definition wf (db : Db) : Prop :=
  NoDup (map Review.id (reviewRepository db)) /\
  Forall (fun r => Review.id r < nextReviewId db) (reviewRepository db).


(** ** The writes behind a request *)

(** One accepted write statement.  A rewritten row comes from a stored one
    ([old]) and keeps its seller, and its reply when it had one. *)
Inductive write (db : Db) : Db -> Prop :=
| write_insert (now : Z) (r : Review.t) :
    write db (inserted now r db)
| write_update (now : Z) (r old : Review.t) :
    lookupReview (Review.id r) db = Some old ->
    Review.seller r = Review.seller old ->
    (forall rp, Review.reply old = Some rp -> Review.reply r = Some rp) ->
    write db (rewritten now r db)
| write_remove (r : Review.t) :
    write db (removed r db)
| write_counter (sellerKey delta : Z) :
    write db (counted sellerKey delta db).

Inductive writes : Db -> Db -> Prop :=
| writes_none (db : Db) : writes db db
| writes_then (db db1 db2 : Db) : write db db1 -> writes db1 db2 -> writes db db2.

(** What a request amounts to when the counter update is not rejected: nothing,
    an insert with its increment, a rewritten row, or a removal with its
    decrement. *)
Inductive commit (db : Db) : Db -> Prop :=
| commit_nothing : commit db db
| commit_created (now : Z) (r : Review.t) :
    commit db (counted (Review.seller r) 1 (inserted now r db))
| commit_rewritten (now : Z) (r old : Review.t) :
    lookupReview (Review.id r) db = Some old ->
    Review.seller r = Review.seller old ->
    commit db (rewritten now r db)
| commit_deleted (r : Review.t) :
    In r (reviewRepository db) ->
    commit db (counted (Review.seller r) (-1) (removed r db)).

(** addReplyToReview and reportReview: at most one row rewritten, from the
    stored row of that key, with its seller kept and its reply kept if it had
    one. *)
Definition rewrites_loaded_row (now : Z) (db db' : Db) : Prop :=
  db' = db \/
  exists r old,
    lookupReview (Review.id r) db = Some old /\
    Review.seller r = Review.seller old /\
    (forall rp, Review.reply old = Some rp -> Review.reply r = Some rp) /\
    db' = rewritten now r db.

(** The reply [rp] of review [reviewId] is still in place, if the review is. *)
Definition replyKept (reviewId : Z) (rp : Reply.t) (db : Db) : Prop :=
  reviewId < nextReviewId db /\
  forall r, lookupReview reviewId db = Some r -> Review.reply r = Some rp.

(** ** Sample data *)

Definition seller10 : SellerProfile.t := SellerProfile.mk 10 7 0.
Definition buyerUser : User.t := User.mk 3 (Some 30) None.
Definition sellerUser : User.t := User.mk 4 None (Some 11).
Definition bothUser : User.t := User.mk 6 (Some 60) (Some 61).
Definition bareUser : User.t := User.mk 5 None None.

Definition db0 : Db :=
  mkDb [] [buyerUser; sellerUser; bareUser; bothUser] [seller10] 1.

Definition dto0 : CreateReviewDto.t := CreateReviewDto.mk 7 3 5 "great part"%string.

(** The store after user 3, who holds buyer profile 30, reviewed seller 7 at
    time 100, and the row that was stored. *)
Definition db1 : Db := fst (createReview no_outage 100 dto0 db0).

Definition review1 : Review.t :=
  Review.mk 1 None 10 5 "great part"%string None false None None 100 100.

(** The same store once the seller has replied at time 200. *)
Definition db2 : Db :=
  fst (addReplyToReview no_outage 200 1 10 "thanks"%string db1).

Definition review2 : Review.t :=
  Review.mk 1 None 10 5 "great part"%string
    (Some (Reply.mk "thanks"%string 200)) false None None 100 200.

Definition reviewAt (key created : Z) : Review.t :=
  Review.mk key None 10 4 "ok"%string None false None None created created.

(** Twelve reviews of seller 10, stored in no particular order of date. *)
Definition db12 : Db :=
  mkDb [reviewAt 1 50; reviewAt 2 20; reviewAt 3 110; reviewAt 4 80;
        reviewAt 5 10; reviewAt 6 120; reviewAt 7 30; reviewAt 8 100;
        reviewAt 9 60; reviewAt 10 90; reviewAt 11 40; reviewAt 12 70]
       [buyerUser] [SellerProfile.mk 10 7 12] 13.



(** Request sequences used as examples, and the stores they lead to. *)
Definition busy_trace : list (Outage * Z * Call) :=
  [(no_outage, 200, AddReplyToReview 1 10 "thanks"%string);
   (no_outage, 300, ReportReview 1 8 "spam"%string);
   (no_outage, 400, CreateReview dto0);
   (counter_update_fails, 500, DeleteReview 2 99);
   (no_outage, 600, CreateReview dto0);
   (no_outage, 700, ReportReview 1 9 "abuse"%string)].

Definition review1_after : Review.t :=
  Review.mk 1 None 10 5 "great part"%string
    (Some (Reply.mk "thanks"%string 200)) true (Some "abuse"%string) (Some 9) 100 700.

Definition db3 : Db :=
  run [(no_outage, 200, AddReplyToReview 1 10 "thanks"%string);
       (no_outage, 300, ReportReview 1 8 "spam"%string)] db1.

Definition review3 : Review.t :=
  Review.mk 1 None 10 5 "great part"%string
    (Some (Reply.mk "thanks"%string 200)) true (Some "spam"%string) (Some 8) 100 300.

Definition calm_trace : list (Outage * Z * Call) :=
  [(no_outage, 100, CreateReview dto0);
   (no_outage, 200, AddReplyToReview 1 10 "thanks"%string);
   (no_outage, 300, CreateReview (CreateReviewDto.mk 7 4 2 "slow"%string));
   (no_outage, 400, DeleteReview 1 3);
   (no_outage, 500, CreateReview (CreateReviewDto.mk 7 6 4 "fine"%string))].

(** ** The life of a stored review *)

(** The only ways a stored review changes while it exists: it receives its
    reply (it had none), or it is reported.  Either refreshes the update
    date. *)
Inductive evolves (r : Review.t) : Review.t -> Prop :=
| evolves_none : evolves r r
| evolves_reply (r' : Review.t) (now : Z) (rp : Reply.t) :
    evolves r r' -> Review.reply r' = None ->
    evolves r (touch now (setReply rp r'))
| evolves_report (r' : Review.t) (now : Z) (reason : string) (reporter : Z) :
    evolves r r' ->
    evolves r (touch now (setReport reason reporter r')).

(** One accepted write statement, with what the service puts in it. *)
Inductive request_write (db : Db) : Db -> Prop :=
| rw_insert (now : Z) (r : Review.t) :
    1 <= Review.rating r <= 5 ->
    Review.reply r = None -> Review.reported r = false ->
    request_write db (inserted now r db)
| rw_reply (now : Z) (old : Review.t) (rp : Reply.t) :
    lookupReview (Review.id old) db = Some old ->
    Review.reply old = None ->
    request_write db (rewritten now (setReply rp old) db)
| rw_report (now : Z) (old : Review.t) (reason : string) (reporter : Z) :
    lookupReview (Review.id old) db = Some old ->
    request_write db (rewritten now (setReport reason reporter old) db)
| rw_remove (r : Review.t) :
    request_write db (removed r db)
| rw_counter (sellerKey delta : Z) :
    request_write db (counted sellerKey delta db).

Inductive request_writes : Db -> Db -> Prop :=
| rws_none (db : Db) : request_writes db db
| rws_then (db db1 db2 : Db) :
    request_write db db1 -> request_writes db1 db2 -> request_writes db db2.

(** Review [reviewId], when still stored, descends from [r0]. *)
Definition tracked (reviewId : Z) (r0 : Review.t) (db : Db) : Prop :=
  reviewId < nextReviewId db /\
  forall r, lookupReview reviewId db = Some r -> evolves r0 r.

Definition ratings_ok (db : Db) : Prop :=
  Forall (fun r => 1 <= Review.rating r <= 5) (reviewRepository db).

(** No request of the trace has its counter update rejected. *)
Definition counters_accepted (trace : list (Outage * Z * Call)) : Prop :=
  Forall (fun step => fst (fst step) UpdateCounter = false) trace.

(** The rows a page request shows (none when the request fails). *)
Definition pageRows (sellerKey page limit : Z) (db : Db) : list Review.t :=
  match getSellerReviews sellerKey page limit db with
  | Ok res => reviews res
  | Err _ => []
  end.

(** ** The sell-part form: image selection

    The image handlers of [SellPartModal] (CreatePartModal.tsx), over the
    part of the component state they read and write.  A [File] is its MIME
    type and its size in bytes; [URL.createObjectURL] is a parameter. *)

Module SellPartModal.

Record File := mkFile {
  type : string;
  size : Z }.

Definition MAX_FILE_SIZE : Z := 5 * 1024 * 1024.

Definition ALLOWED_FILE_TYPES : list string :=
  ["image/jpeg"%string; "image/png"%string; "image/webp"%string].

Definition MAX_FILES : Z := 5.

Definition includes (l : list string) (x : string) : bool :=
  existsb (String.eqb x) l.

Definition invalidType : string :=
  "Invalid file type. Only JPG, PNG and WebP allowed."%string.
Definition tooLarge : string := "File too large. Maximum size is 5MB."%string.
Definition tooMany : string := "Maximum 5 images allowed"%string.

Definition validateImage (file : File) : option string :=
  if negb (includes ALLOWED_FILE_TYPES (type file)) then Some invalidType
  else if size file >? MAX_FILE_SIZE then Some tooLarge
  else None.

Record State := mkState {
  images : list File;
  previews : list string;
  imageError : string }.

Definition initial : State := mkState [] [] ""%string.

(** The two arrays the [forEach] fills, and the last error it set. *)
Record Picked := mkPicked {
  validFiles : list File;
  validPreviews : list string;
  lastError : string }.

Definition visit (createObjectURL : File -> string) (acc : Picked) (file : File) : Picked :=
  match validateImage file with
  | Some error => mkPicked (validFiles acc) (validPreviews acc) error
  | None =>
    mkPicked (validFiles acc ++ [file])
             (validPreviews acc ++ [createObjectURL file])
             (lastError acc)
  end.

Definition handleImageChange (createObjectURL : File -> string) (files : list File)
  (st : State) : State :=
  if Z.of_nat (length files) >? MAX_FILES
  then mkState (images st) (previews st) tooMany
  else
    let acc := fold_left (visit createObjectURL) files (mkPicked [] [] ""%string) in
    if Z.of_nat (length (validFiles acc)) >? 0
    then mkState (validFiles acc) (validPreviews acc) (lastError acc)
    else mkState (images st) (previews st) (lastError acc).

(** [l.filter((_, i) => i !== index)], counting from [i]. *)
Fixpoint withoutIndexFrom {A : Type} (i index : Z) (l : list A) : list A :=
  match l with
  | [] => []
  | x :: rest =>
    if i =? index then withoutIndexFrom (i + 1) index rest
    else x :: withoutIndexFrom (i + 1) index rest
  end.

Definition removeImage (index : Z) (st : State) : State :=
  mkState (withoutIndexFrom 0 index (images st))
          (withoutIndexFrom 0 index (previews st))
          (imageError st).

Inductive Event :=
| Pick (files : list File)
| Remove (index : Z).

Definition handle (createObjectURL : File -> string) (st : State) (e : Event) : State :=
  match e with
  | Pick files => handleImageChange createObjectURL files st
  | Remove index => removeImage index st
  end.

(** What the selection should always satisfy. *)
Definition selection_ok (st : State) : Prop :=
  Forall (fun f => validateImage f = None) (images st) /\
  Z.of_nat (length (images st)) <= MAX_FILES /\
  length (previews st) = length (images st).

Definition accepted (file : File) : bool :=
  match validateImage file with None => true | Some _ => false end.

Definition errorsOf (files : list File) : list string :=
  flat_map (fun f => match validateImage f with Some e => [e] | None => [] end) files.

Definition jpeg (bytes : Z) : File := mkFile "image/jpeg"%string bytes.
Definition gif (bytes : Z) : File := mkFile "image/gif"%string bytes.
Definition blobUrl (f : File) : string := type f.

End SellPartModal.

(** ** Lists: lookups through the table operations *)

Section Lookups.
Context {A : Type}.
Variables p q : A -> bool.

Lemma find_map_stable (f : A -> A) (l : list A) :
  (forall x, p (f x) = p x) ->
  find p (map f l) = option_map f (find p l).
Proof.
  intros H. induction l as [|a l IH]; simpl; [reflexivity|].
  rewrite H. destruct (p a); [reflexivity | exact IH].
Qed.

Lemma find_filter_kept (l : list A) :
  (forall x, p x = true -> q x = true) ->
  find p (filter q l) = find p l.
Proof.
  intros H. induction l as [|a l IH]; simpl; [reflexivity|].
  destruct (p a) eqn:Ep.
  - rewrite (H a Ep). simpl. rewrite Ep. reflexivity.
  - destruct (q a); simpl; [rewrite Ep|]; exact IH.
Qed.

Lemma find_filter_dropped (l : list A) :
  (forall x, p x = true -> q x = false) ->
  find p (filter q l) = None.
Proof.
  intros H. induction l as [|a l IH]; simpl; [reflexivity|].
  destruct (q a) eqn:Eq; [|exact IH].
  simpl. destruct (p a) eqn:Ep; [|exact IH].
  rewrite (H a Ep) in Eq. discriminate.
Qed.

Lemma find_snoc (l : list A) (x : A) :
  find p (l ++ [x]) =
  match find p l with
  | Some y => Some y
  | None => if p x then Some x else None
  end.
Proof.
  induction l as [|a l IH]; simpl; [reflexivity|].
  destruct (p a); [reflexivity | exact IH].
Qed.

End Lookups.

Lemma lookupReview_id (reviewId : Z) (db : Db) (r : Review.t) :
  lookupReview reviewId db = Some r ->
  Review.id r = reviewId /\ In r (reviewRepository db).
Proof.
  unfold lookupReview. intros H. apply find_some in H.
  destruct H as [Hin Hid]. split; [lia | exact Hin].
Qed.

(** ** createReview *)

Ltac unfold_task :=
  unfold bind, ret, throw, findSellerByUserId, findUser, findReview,
    insert, update, remove, addToNumReviews in *.

Lemma rating_guard (r : Z) :
  (r <? 1) || (r >? 5) = false <-> 1 <= r <= 5.
Proof.
  rewrite orb_false_iff, Z.ltb_ge, Z.gtb_ltb, Z.ltb_ge. lia.
Qed.

Lemma createReview_bad_rating (o : Outage) (now : Z) (data : CreateReviewDto.t) (db : Db) :
  ~ (1 <= CreateReviewDto.rating data <= 5) ->
  createReview o now data db = (db, Err ratingError).
Proof.
  intros H. unfold createReview.
  destruct ((CreateReviewDto.rating data <? 1) || (CreateReviewDto.rating data >? 5)) eqn:E.
  - reflexivity.
  - apply rating_guard in E. contradiction.
Qed.

(** Once the rating, the seller and the reviewer have been accepted, the call
    is one insert followed by one counter update. *)
Lemma createReview_accepted (o : Outage) (now : Z) (data : CreateReviewDto.t) (db : Db)
  (s : SellerProfile.t) (u : User.t) (k : Z) :
  1 <= CreateReviewDto.rating data <= 5 ->
  find (fun x => SellerProfile.userId x =? CreateReviewDto.sellerId data)
       (sellerRepository db) = Some s ->
  find (fun x => User.id x =? CreateReviewDto.reviewerId data)
       (userRepository db) = Some u ->
  orElse (User.buyerProfile u) (User.sellerProfile u) = Some k ->
  createReview o now data db =
  (savedReview <- insert o now (reviewOf s u data) ;;
   _ <- addToNumReviews o (SellerProfile.id s) 1 ;;
   ret savedReview) db.
Proof.
  intros Hr Hs Hu Hk. unfold createReview.
  apply rating_guard in Hr. rewrite Hr.
  unfold bind at 1, findSellerByUserId. rewrite Hs.
  unfold bind at 1, findUser. rewrite Hu, Hk. reflexivity.
Qed.

(** Inversion of a successful call. *)
Lemma createReview_ok_inv (o : Outage) (now : Z) (data : CreateReviewDto.t)
  (db db' : Db) (r : ReviewObject) :
  createReview o now data db = (db', Ok r) ->
  exists s u k,
    1 <= CreateReviewDto.rating data <= 5 /\
    find (fun x => SellerProfile.userId x =? CreateReviewDto.sellerId data)
         (sellerRepository db) = Some s /\
    find (fun x => User.id x =? CreateReviewDto.reviewerId data)
         (userRepository db) = Some u /\
    orElse (User.buyerProfile u) (User.sellerProfile u) = Some k /\
    o InsertReview = false /\ o UpdateCounter = false /\
    r = onEntity (stamp (nextReviewId db) now) (reviewOf s u data) /\
    db' = counted (SellerProfile.id s) 1 (inserted now (entity (reviewOf s u data)) db).
Proof.
  intros H.
  destruct ((CreateReviewDto.rating data <? 1) || (CreateReviewDto.rating data >? 5)) eqn:E.
  { unfold createReview in H. rewrite E in H. discriminate. }
  destruct (find (fun x => SellerProfile.userId x =? CreateReviewDto.sellerId data)
                 (sellerRepository db)) as [s|] eqn:Hs.
  2:{ unfold createReview in H. rewrite E in H.
      unfold_task. rewrite Hs in H. discriminate. }
  destruct (find (fun x => User.id x =? CreateReviewDto.reviewerId data)
                 (userRepository db)) as [u|] eqn:Hu.
  2:{ unfold createReview in H. rewrite E in H.
      unfold_task. rewrite Hs, Hu in H. discriminate. }
  destruct (orElse (User.buyerProfile u) (User.sellerProfile u)) as [k|] eqn:Hk.
  2:{ unfold createReview in H. rewrite E in H.
      unfold_task. rewrite Hs, Hu, Hk in H. discriminate. }
  apply rating_guard in E.
  rewrite (createReview_accepted o now data db s u k E Hs Hu Hk) in H.
  unfold_task.
  destruct (o InsertReview) eqn:Ei; [discriminate|].
  destruct (o UpdateCounter) eqn:Ec; [discriminate|].
  inversion H; subst. exists s, u, k. repeat split; try assumption; lia.
Qed.

(** C2. For every rating r, and provided the seller and the reviewer (with a
    profile) exist and the store accepts the writes, createReview succeeds if
    and only if 1 <= r <= 5; a rating outside that range always fails with
    the rating error, leaving the store as it was. *)
Theorem createReview_succeeds_iff_rating_in_range :
  forall (now : Z) (data : CreateReviewDto.t) (db : Db) (s : SellerProfile.t)
         (u : User.t) (k : Z),
    find (fun x => SellerProfile.userId x =? CreateReviewDto.sellerId data)
         (sellerRepository db) = Some s ->
    find (fun x => User.id x =? CreateReviewDto.reviewerId data)
         (userRepository db) = Some u ->
    orElse (User.buyerProfile u) (User.sellerProfile u) = Some k ->
    ((exists r, snd (createReview no_outage now data db) = Ok r) <->
     1 <= CreateReviewDto.rating data <= 5) /\
    (~ (1 <= CreateReviewDto.rating data <= 5) ->
     forall o, createReview o now data db = (db, Err ratingError)).
Proof.
  intros now data db s u k Hs Hu Hk. split; [split|].
  - intros [r Hr].
    destruct (Z_le_dec 1 (CreateReviewDto.rating data)) as [H1|H1];
      [destruct (Z_le_dec (CreateReviewDto.rating data) 5) as [H5|H5]|];
      try (split; assumption);
      rewrite createReview_bad_rating in Hr by lia; discriminate.
  - intros Hr.
    rewrite (createReview_accepted no_outage now data db s u k Hr Hs Hu Hk).
    unfold_task. simpl. eexists. reflexivity.
  - intros Hr o. apply createReview_bad_rating. exact Hr.
Qed.

Lemma createReview_succeeds_iff_rating_in_range_witness :
  (exists r, snd (createReview no_outage 100 dto0 db0) = Ok r) /\
  createReview no_outage 100 (CreateReviewDto.mk 7 3 6 "great part"%string) db0 =
    (db0, Err ratingError) /\
  createReview no_outage 100 (CreateReviewDto.mk 7 3 0 "great part"%string) db0 =
    (db0, Err ratingError).
Proof.
  split; [|split].
  - apply (createReview_succeeds_iff_rating_in_range 100 dto0 db0 seller10 buyerUser 30);
      try reflexivity. simpl. lia.
  - apply (createReview_succeeds_iff_rating_in_range 100
             (CreateReviewDto.mk 7 3 6 "great part"%string) db0 seller10 buyerUser 30);
      try reflexivity. simpl. lia.
  - apply (createReview_succeeds_iff_rating_in_range 100
             (CreateReviewDto.mk 7 3 0 "great part"%string) db0 seller10 buyerUser 30);
      try reflexivity. simpl. lia.
Defined.

(** What createReview does with the reviewer.  The object it returns carries
    the buyer profile when the reviewer has one and the seller profile
    otherwise; a reviewer with neither is refused.  The row it stores holds
    no reviewer at all: its only reviewer column, [buyer], is left empty, and
    an instance loaded back carries no reviewer identity. *)
Lemma createReview_reviewer (o : Outage) (now : Z) (data : CreateReviewDto.t) (db : Db) :
  (forall db' r,
     createReview o now data db = (db', Ok r) ->
     (exists u,
        find (fun x => User.id x =? CreateReviewDto.reviewerId data)
             (userRepository db) = Some u /\
        match User.buyerProfile u with
        | Some b => buyerReviewer r = Some b /\ sellerReviewer r = None
        | None =>
          exists k, User.sellerProfile u = Some k /\
            sellerReviewer r = Some k /\ buyerReviewer r = None
        end) /\
     In (entity r) (reviewRepository db') /\
     Review.buyer (entity r) = None /\
     recordedReviewer (instance (entity r)) = None) /\
  (forall s u,
     1 <= CreateReviewDto.rating data <= 5 ->
     find (fun x => SellerProfile.userId x =? CreateReviewDto.sellerId data)
          (sellerRepository db) = Some s ->
     find (fun x => User.id x =? CreateReviewDto.reviewerId data)
          (userRepository db) = Some u ->
     User.buyerProfile u = None -> User.sellerProfile u = None ->
     createReview o now data db = (db, Err profileError)).
Proof.
  split.
  - intros db' r H.
    apply createReview_ok_inv in H.
    destruct H as (s & u & k & _ & _ & Hu & Hk & _ & _ & Hr & Hdb).
    subst r db'. split; [|split; [|split]].
    + exists u. split; [exact Hu|].
      unfold reviewOf.
      destruct (User.buyerProfile u) as [b|] eqn:Hb.
      * split; reflexivity.
      * simpl in Hk. exists k. rewrite Hk. repeat split; reflexivity.
    + simpl. apply in_or_app. right. left. reflexivity.
    + unfold reviewOf.
      destruct (User.buyerProfile u); [reflexivity|].
      destruct (User.sellerProfile u); reflexivity.
    + reflexivity.
  - intros s u Hr Hs Hu Hb Hsp. unfold createReview.
    apply rating_guard in Hr. rewrite Hr.
    unfold_task. rewrite Hs, Hu, Hb, Hsp. reflexivity.
Qed.

(** C6, at a concrete call: user 3, who holds buyer profile 30, reviews
    seller 7.  The call succeeds and the returned object has buyerReviewer =
    30, but the stored row is [review1], whose [buyer] column is empty, and the
    instance found again under key 1 records no reviewer. *)
Theorem createReview_reviewer_not_persisted :
  createReview no_outage 100 dto0 db0 =
    (mkDb [review1] (userRepository db0) [SellerProfile.mk 10 7 1] 2,
     Ok (mkObject review1 (Some 30) None)) /\
  Review.buyer review1 = None /\
  findReview 1 db1 = (db1, Ok (Some (mkObject review1 None None))) /\
  recordedReviewer (mkObject review1 None None) = None.
Proof. repeat split. Qed.

(** ** Saving and removing a loaded review *)

Lemma update_store (o : Outage) (now : Z) (review : ReviewObject) (db : Db) :
  o UpdateReview = false ->
  update o now review db =
  (rewritten now (entity review) db, Ok (onEntity (touch now) review)).
Proof. intros H. unfold update. rewrite H. reflexivity. Qed.

Lemma update_rejected (o : Outage) (now : Z) (review : ReviewObject) (db : Db) :
  o UpdateReview = true -> update o now review db = (db, Err queryFailed).
Proof. intros H. unfold update. rewrite H. reflexivity. Qed.

Lemma lookup_rewritten (saved : Review.t) (reviewId : Z) (rows : list Review.t) :
  find (fun x => Review.id x =? reviewId) (map (rewriteRow saved) rows) =
  option_map (rewriteRow saved) (find (fun x => Review.id x =? reviewId) rows).
Proof.
  apply find_map_stable with (p := fun x => Review.id x =? reviewId).
  intros x. unfold rewriteRow.
  destruct (Review.id x =? Review.id saved) eqn:E; [|reflexivity].
  apply Z.eqb_eq in E. rewrite E. reflexivity.
Qed.

Lemma lookup_after_update (now reviewId : Z) (r old : Review.t) (db : Db) :
  lookupReview reviewId db = Some old ->
  Review.id r = reviewId ->
  lookupReview reviewId (rewritten now r db) = Some (touch now r).
Proof.
  intros H Hid.
  pose proof (lookupReview_id _ _ _ H) as [Hold _].
  unfold lookupReview in *. simpl.
  rewrite lookup_rewritten, H. simpl. unfold rewriteRow. simpl.
  rewrite Hold, Hid, Z.eqb_refl. reflexivity.
Qed.

Lemma lookup_after_remove (reviewId : Z) (r : Review.t) (rows : list Review.t) :
  Review.id r = reviewId ->
  find (fun x => Review.id x =? reviewId) (filter (otherThan r) rows) = None.
Proof.
  intros Hid. apply find_filter_dropped.
  intros x Hx. unfold otherThan. rewrite Hid, Hx. reflexivity.
Qed.

(** ** deleteReview *)

(** The test itself is the intended one: on an instance that carries a
    reviewer identity it turns away every other caller. *)
Lemma reviewer_guard (review : ReviewObject) (userId k : Z) :
  recordedReviewer review = Some k ->
  userId <> k ->
  differsFrom (buyerReviewer review) userId
  || differsFrom (sellerReviewer review) userId = true.
Proof.
  unfold recordedReviewer, orElse. intros Hk Hne.
  destruct (buyerReviewer review) as [b|].
  - inversion Hk; subst. simpl.
    destruct (Z.eqb_spec k userId); [congruence | reflexivity].
  - rewrite Hk. simpl.
    destruct (Z.eqb_spec k userId); [congruence | reflexivity].
Qed.

(** But the instance deleteReview loads never carries one, so the test lets
    every caller through. *)
Lemma deleteReview_found (o : Outage) (reviewId userId : Z) (db : Db) (r : Review.t) :
  lookupReview reviewId db = Some r ->
  deleteReview o reviewId userId db =
  (_ <- remove o (instance r) ;; addToNumReviews o (Review.seller r) (-1)) db.
Proof.
  intros Hr. unfold deleteReview. unfold bind at 1. unfold findReview.
  rewrite Hr. reflexivity.
Qed.

Lemma deleteReview_any_caller (o : Outage) (reviewId userId : Z) (db : Db) (r : Review.t) :
  lookupReview reviewId db = Some r ->
  snd (deleteReview o reviewId userId db) <> Err notTheReviewer /\
  (o RemoveReview = false -> o UpdateCounter = false ->
   deleteReview o reviewId userId db =
     (counted (Review.seller r) (-1) (removed r db), Ok tt) /\
   lookupReview reviewId (counted (Review.seller r) (-1) (removed r db)) = None).
Proof.
  intros Hr. rewrite (deleteReview_found _ _ _ _ _ Hr). unfold_task. split.
  - destruct (o RemoveReview); simpl; [discriminate|].
    destruct (o UpdateCounter); simpl; discriminate.
  - intros -> ->. simpl. split; [reflexivity|].
    unfold lookupReview. simpl. apply lookup_after_remove.
    apply (lookupReview_id _ _ _ Hr).
Qed.

(** C3, at a concrete call: review 1 was written by user 3 through buyer
    profile 30; user 99 asks for its deletion.  The call resolves: the review
    is removed and the counter of its seller decremented. *)
Theorem deleteReview_by_another_user_removes :
  createReview no_outage 100 dto0 db0 = (db1, Ok (mkObject review1 (Some 30) None)) /\
  lookupReview 1 db1 = Some review1 /\
  deleteReview no_outage 1 99 db1 =
    (mkDb [] (userRepository db0) [seller10] 2, Ok tt).
Proof. repeat split. Qed.

(** ** reportReview *)

Lemma reportReview_found (o : Outage) (now reviewId reporter : Z) (reason : string)
  (db : Db) (r : Review.t) :
  lookupReview reviewId db = Some r ->
  reportReview o now reviewId reporter reason db =
  update o now (instance (setReport reason reporter r)) db.
Proof.
  intros Hr. unfold reportReview, bind, findReview. rewrite Hr. reflexivity.
Qed.

Lemma reportReview_once (o : Outage) (now reviewId reporter : Z) (reason : string)
  (db : Db) (r : Review.t) :
  o UpdateReview = false ->
  lookupReview reviewId db = Some r ->
  exists db' r',
    reportReview o now reviewId reporter reason db = (db', Ok r') /\
    lookupReview reviewId db' = Some (entity r') /\
    Review.reported (entity r') = true /\
    Review.reportReason (entity r') = Some reason /\
    Review.reporterId (entity r') = Some reporter.
Proof.
  intros Ho Hr.
  exists (rewritten now (setReport reason reporter r) db).
  exists (instance (touch now (setReport reason reporter r))).
  rewrite (reportReview_found _ _ _ _ _ _ _ Hr).
  split; [rewrite (update_store _ _ _ _ Ho); reflexivity|].
  split; [|repeat split].
  apply (lookup_after_update now reviewId _ r db Hr).
  apply (lookupReview_id _ _ _ Hr).
Qed.

(** C9. On an existing review, and when the store accepts the write,
    reportReview succeeds and stores reported = true with the given reason and
    reporter, whatever report was there before; a second report on the
    resulting store succeeds again and only its reason and reporter remain. *)
Theorem reportReview_last_report_wins :
  forall (o : Outage) (now reviewId reporter : Z) (reason : string) (db : Db)
         (r : Review.t),
    o UpdateReview = false ->
    lookupReview reviewId db = Some r ->
    exists db' r',
      reportReview o now reviewId reporter reason db = (db', Ok r') /\
      lookupReview reviewId db' = Some (entity r') /\
      Review.reported (entity r') = true /\
      Review.reportReason (entity r') = Some reason /\
      Review.reporterId (entity r') = Some reporter /\
      forall (now2 reporter2 : Z) (reason2 : string),
      exists db'' r'',
        reportReview o now2 reviewId reporter2 reason2 db' = (db'', Ok r'') /\
        lookupReview reviewId db'' = Some (entity r'') /\
        Review.reported (entity r'') = true /\
        Review.reportReason (entity r'') = Some reason2 /\
        Review.reporterId (entity r'') = Some reporter2.
Proof.
  intros o now reviewId reporter reason db r Ho Hr.
  destruct (reportReview_once o now reviewId reporter reason db r Ho Hr)
    as (db' & r' & Hcall & Hfind & Hflag & Hreason & Hwho).
  exists db', r'. repeat (split; [assumption|]).
  intros now2 reporter2 reason2.
  exact (reportReview_once o now2 reviewId reporter2 reason2 db' (entity r') Ho Hfind).
Qed.

Lemma reportReview_last_report_wins_witness :
  exists db' r',
    reportReview no_outage 300 1 8 "spam"%string db1 = (db', Ok r') /\
    Review.reportReason (entity r') = Some "spam"%string /\
    exists db'' r'',
      reportReview no_outage 400 1 9 "abuse"%string db' = (db'', Ok r'') /\
      lookupReview 1 db'' = Some (entity r'') /\
      Review.reported (entity r'') = true /\
      Review.reportReason (entity r'') = Some "abuse"%string /\
      Review.reporterId (entity r'') = Some 9.
Proof.
  destruct (reportReview_last_report_wins no_outage 300 1 8 "spam"%string db1 review1
              eq_refl eq_refl)
    as (db' & r' & Hcall & _ & _ & Hreason & _ & Hagain).
  exists db', r'. split; [exact Hcall|]. split; [exact Hreason|].
  exact (Hagain 400 9 "abuse"%string).
Defined.

(** ** addReplyToReview *)

Lemma addReplyToReview_ok_inv (o : Outage) (now reviewId sellerKey : Z)
  (comment : string) (db db' : Db) (r : Review.t) (r' : ReviewObject) :
  lookupReview reviewId db = Some r ->
  addReplyToReview o now reviewId sellerKey comment db = (db', Ok r') ->
  Review.seller r = sellerKey /\ Review.reply r = None /\ o UpdateReview = false /\
  update o now (instance (setReply (Reply.mk comment now) r)) db = (db', Ok r').
Proof.
  intros Hr H. unfold addReplyToReview, bind, findReview, throw in H.
  rewrite Hr in H. simpl in H.
  destruct (Z.eqb_spec (Review.seller r) sellerKey) as [Es|Es]; simpl in H;
    [|discriminate].
  destruct (Review.reply r) as [rp|] eqn:Hrp; [discriminate|].
  destruct (o UpdateReview) eqn:Ho.
  - rewrite (update_rejected _ _ _ _ Ho) in H. discriminate.
  - repeat split; assumption.
Qed.

Lemma addReplyToReview_replied (o : Outage) (now reviewId sellerKey : Z)
  (comment : string) (db : Db) (r : Review.t) (rp : Reply.t) :
  lookupReview reviewId db = Some r ->
  Review.reply r = Some rp ->
  addReplyToReview o now reviewId sellerKey comment db =
  (db, Err (if Review.seller r =? sellerKey then alreadyReplied else notTheSeller)).
Proof.
  intros Hr Hrp. unfold addReplyToReview, bind, findReview, throw.
  rewrite Hr. simpl. destruct (Review.seller r =? sellerKey); simpl; [|reflexivity].
  rewrite Hrp. reflexivity.
Qed.

(** C10. On an existing review, a successful addReplyToReview stores the same
    review with only reply (and updatedAt) changed, and a successful
    reportReview stores the same review with only reported, reportReason and
    reporterId (and updatedAt) changed: id, seller, reviewer, rating, comment
    and createdAt are kept by both, reportReview keeps reply, and
    addReplyToReview keeps the three moderation fields. *)
Theorem reply_and_report_change_only_their_fields :
  forall (o : Outage) (now reviewId : Z) (db : Db) (r : Review.t),
    lookupReview reviewId db = Some r ->
    (forall sellerKey comment db' r',
       addReplyToReview o now reviewId sellerKey comment db = (db', Ok r') ->
       lookupReview reviewId db' = Some (entity r') /\
       entity r' =
         Review.mk (Review.id r) (Review.buyer r) (Review.seller r)
           (Review.rating r) (Review.comment r)
           (Some (Reply.mk comment now))
           (Review.reported r) (Review.reportReason r) (Review.reporterId r)
           (Review.createdAt r) now) /\
    (forall reporter reason db' r',
       reportReview o now reviewId reporter reason db = (db', Ok r') ->
       lookupReview reviewId db' = Some (entity r') /\
       entity r' =
         Review.mk (Review.id r) (Review.buyer r) (Review.seller r)
           (Review.rating r) (Review.comment r)
           (Review.reply r)
           true (Some reason) (Some reporter)
           (Review.createdAt r) now).
Proof.
  intros o now reviewId db r Hr.
  pose proof (lookupReview_id _ _ _ Hr) as [Hid _].
  split.
  - intros sellerKey comment db' r' H.
    destruct (addReplyToReview_ok_inv _ _ _ _ _ _ _ _ _ Hr H) as (_ & _ & Ho & Hup).
    rewrite (update_store _ _ _ _ Ho) in Hup. inversion Hup; subst db' r'.
    split; [|reflexivity].
    apply (lookup_after_update now reviewId _ r db Hr). exact Hid.
  - intros reporter reason db' r' H.
    rewrite (reportReview_found _ _ _ _ _ _ _ Hr) in H.
    destruct (o UpdateReview) eqn:Ho.
    { rewrite (update_rejected _ _ _ _ Ho) in H. discriminate. }
    rewrite (update_store _ _ _ _ Ho) in H. inversion H; subst db' r'.
    split; [|reflexivity].
    apply (lookup_after_update now reviewId _ r db Hr). exact Hid.
Qed.

Lemma reply_and_report_change_only_their_fields_witness :
  lookupReview 1 db2 = Some review2 /\
  lookupReview 1 (fst (reportReview no_outage 300 1 8 "spam"%string db2)) =
  Some (Review.mk 1 None 10 5 "great part"%string
          (Some (Reply.mk "thanks"%string 200)) true (Some "spam"%string) (Some 8)
          100 300).
Proof.
  destruct (reply_and_report_change_only_their_fields no_outage 200 1 db1 review1 eq_refl)
    as [Hreply _].
  destruct (reply_and_report_change_only_their_fields no_outage 300 1 db2 review2 eq_refl)
    as [_ Hreport].
  split.
  - destruct (Hreply 10 "thanks"%string db2 (instance review2) eq_refl) as [Hfind _].
    exact Hfind.
  - destruct (Hreport 8 "spam"%string _ _ eq_refl) as [Hfind _].
    exact Hfind.
Defined.

(** ** What a request leaves in the store *)

Lemma reviewOf_seller (s : SellerProfile.t) (u : User.t) (data : CreateReviewDto.t) :
  Review.seller (entity (reviewOf s u data)) = SellerProfile.id s.
Proof.
  unfold reviewOf.
  destruct (User.buyerProfile u); [reflexivity|].
  destruct (User.sellerProfile u); reflexivity.
Qed.

Lemma createReview_store (o : Outage) (now : Z) (data : CreateReviewDto.t) (db : Db) :
  fst (createReview o now data db) = db \/
  exists r,
    (o UpdateCounter = true /\ fst (createReview o now data db) = inserted now r db) \/
    fst (createReview o now data db) = counted (Review.seller r) 1 (inserted now r db).
Proof.
  destruct (createReview o now data db) as [db' res] eqn:H. simpl.
  unfold createReview in H.
  destruct ((CreateReviewDto.rating data <? 1) || (CreateReviewDto.rating data >? 5));
    [left; inversion H; reflexivity|].
  unfold bind at 1, findSellerByUserId in H.
  destruct (find _ (sellerRepository db)) as [s|]; [|left; inversion H; reflexivity].
  unfold bind at 1, findUser in H.
  destruct (find _ (userRepository db)) as [u|]; [|left; inversion H; reflexivity].
  destruct (orElse _ _); [|left; inversion H; reflexivity].
  unfold_task.
  destruct (o InsertReview); [left; inversion H; reflexivity|].
  right. exists (entity (reviewOf s u data)). rewrite reviewOf_seller.
  destruct (o UpdateCounter); inversion H.
  - left. split; reflexivity.
  - right. reflexivity.
Qed.

Lemma deleteReview_store (o : Outage) (reviewId userId : Z) (db : Db) :
  fst (deleteReview o reviewId userId db) = db \/
  exists r,
    In r (reviewRepository db) /\
    ((o UpdateCounter = true /\ fst (deleteReview o reviewId userId db) = removed r db) \/
     fst (deleteReview o reviewId userId db) = counted (Review.seller r) (-1) (removed r db)).
Proof.
  destruct (deleteReview o reviewId userId db) as [db' res] eqn:H. simpl.
  destruct (lookupReview reviewId db) as [r|] eqn:Hr.
  2:{ left. unfold deleteReview, bind, findReview in H. rewrite Hr in H.
      destruct (inKeyRange reviewId); inversion H; reflexivity. }
  rewrite (deleteReview_found _ _ _ _ _ Hr) in H. unfold_task.
  destruct (o RemoveReview); [left; inversion H; reflexivity|].
  right. exists r. split; [apply (lookupReview_id _ _ _ Hr)|].
  simpl in H. destruct (o UpdateCounter); inversion H.
  - left. split; reflexivity.
  - right. reflexivity.
Qed.

Lemma addReplyToReview_store (o : Outage) (now reviewId sellerKey : Z)
  (comment : string) (db : Db) :
  rewrites_loaded_row now db (fst (addReplyToReview o now reviewId sellerKey comment db)).
Proof.
  unfold addReplyToReview, bind, findReview, throw.
  destruct (lookupReview reviewId db) as [r|] eqn:Hr;
    [|left; destruct (inKeyRange reviewId); reflexivity].
  simpl. destruct (negb _); [left; reflexivity|].
  destruct (Review.reply r) as [rp|] eqn:Hrp; [left; reflexivity|].
  unfold update. destruct (o UpdateReview); [left; reflexivity|].
  right. exists (setReply (Reply.mk comment now) r), r. simpl.
  rewrite (proj1 (lookupReview_id _ _ _ Hr)).
  repeat split; try assumption; try reflexivity.
  intros rp Hsome. rewrite Hrp in Hsome. discriminate.
Qed.

Lemma reportReview_store (o : Outage) (now reviewId reporter : Z)
  (reason : string) (db : Db) :
  rewrites_loaded_row now db (fst (reportReview o now reviewId reporter reason db)).
Proof.
  unfold reportReview, bind, findReview, throw.
  destruct (lookupReview reviewId db) as [r|] eqn:Hr;
    [|left; destruct (inKeyRange reviewId); reflexivity].
  simpl. unfold update. destruct (o UpdateReview); [left; reflexivity|].
  right. exists (setReport reason reporter r), r. simpl.
  rewrite (proj1 (lookupReview_id _ _ _ Hr)).
  repeat split; try assumption; try reflexivity.
  intros rp Hsome. exact Hsome.
Qed.

(** ** Every request is a sequence of writes *)

Lemma writes_one (db db' : Db) : write db db' -> writes db db'.
Proof. intros H. eapply writes_then; [exact H | apply writes_none]. Qed.

Lemma writes_trans (db db1 db2 : Db) :
  writes db db1 -> writes db1 db2 -> writes db db2.
Proof.
  intros H. induction H as [|db da db1 Hw _ IH]; intros H2; [exact H2|].
  eapply writes_then; [exact Hw | exact (IH H2)].
Qed.

Lemma rewrites_loaded_row_writes (now : Z) (db db' : Db) :
  rewrites_loaded_row now db db' -> writes db db'.
Proof.
  intros [->|(r & old & Hold & Hseller & Hreply & ->)]; [apply writes_none|].
  apply writes_one. exact (write_update db now r old Hold Hseller Hreply).
Qed.

Lemma exec_writes (o : Outage) (now : Z) (c : Call) (db : Db) :
  writes db (exec o now c db).
Proof.
  destruct c as [data | k | k page limit | reviewId k comment
                 | reviewId reporter reason | reviewId userId]; simpl.
  - destruct (createReview_store o now data db) as [->|[r [[_ ->]| ->]]].
    + apply writes_none.
    + apply writes_one. apply write_insert.
    + eapply writes_then; [apply write_insert|].
      apply writes_one. apply write_counter.
  - apply writes_none.
  - apply writes_none.
  - apply (rewrites_loaded_row_writes now). apply addReplyToReview_store.
  - apply (rewrites_loaded_row_writes now). apply reportReview_store.
  - destruct (deleteReview_store o reviewId userId db) as [->|[r [_ [[_ ->]| ->]]]].
    + apply writes_none.
    + apply writes_one. apply write_remove.
    + eapply writes_then; [apply write_remove|].
      apply writes_one. apply write_counter.
Qed.

Lemma run_writes (trace : list (Outage * Z * Call)) (db : Db) :
  writes db (run trace db).
Proof.
  revert db. induction trace as [|[[o now] c] rest IH]; intros db; simpl.
  - apply writes_none.
  - eapply writes_trans; [apply exec_writes | apply IH].
Qed.

Lemma exec_commit (o : Outage) (now : Z) (c : Call) (db : Db) :
  o UpdateCounter = false ->
  commit db (exec o now c db).
Proof.
  intros Ec.
  destruct c as [data | k | k page limit | reviewId k comment
                 | reviewId reporter reason | reviewId userId]; simpl.
  - destruct (createReview_store o now data db) as [->|[r [[Hc _]| ->]]].
    + apply commit_nothing.
    + congruence.
    + apply commit_created.
  - apply commit_nothing.
  - apply commit_nothing.
  - destruct (addReplyToReview_store o now reviewId k comment db)
      as [->|(r & old & Hold & Hseller & _ & ->)];
      [apply commit_nothing | exact (commit_rewritten db now r old Hold Hseller)].
  - destruct (reportReview_store o now reviewId reporter reason db)
      as [->|(r & old & Hold & Hseller & _ & ->)];
      [apply commit_nothing | exact (commit_rewritten db now r old Hold Hseller)].
  - destruct (deleteReview_store o reviewId userId db) as [->|[r [Hin [[Hc _]| ->]]]].
    + apply commit_nothing.
    + congruence.
    + apply commit_deleted. exact Hin.
Qed.

(** ** Invariants of the review table *)

Lemma rewriteRow_id (saved x : Review.t) :
  Review.id (rewriteRow saved x) = Review.id x.
Proof.
  unfold rewriteRow. destruct (Z.eqb_spec (Review.id x) (Review.id saved)) as [E|E];
    [symmetry; exact E | reflexivity].
Qed.

Lemma map_id_rewritten (saved : Review.t) (rows : list Review.t) :
  map Review.id (map (rewriteRow saved) rows) = map Review.id rows.
Proof.
  rewrite map_map. apply map_ext. intros x. apply rewriteRow_id.
Qed.

Lemma NoDup_map_filter {A B : Type} (f : A -> B) (q : A -> bool) (l : list A) :
  NoDup (map f l) -> NoDup (map f (filter q l)).
Proof.
  induction l as [|a l IH]; simpl; intros H; [constructor|].
  inversion H as [|? ? Hnotin Hrest]; subst.
  destruct (q a); simpl; [|exact (IH Hrest)].
  constructor; [|exact (IH Hrest)].
  intros Hin. apply Hnotin. apply in_map_iff in Hin.
  destruct Hin as [x [Hx Hin]]. apply filter_In in Hin.
  apply in_map_iff. exists x. split; [exact Hx | apply Hin].
Qed.

Lemma NoDup_map_unique {A B : Type} (f : A -> B) (l : list A) (x y : A) :
  NoDup (map f l) -> In x l -> In y l -> f x = f y -> x = y.
Proof.
  induction l as [|a l IH]; simpl; intros H Hx Hy E; [contradiction|].
  inversion H as [|? ? Hnotin Hrest]; subst.
  destruct Hx as [->|Hx], Hy as [->|Hy].
  - reflexivity.
  - exfalso. apply Hnotin. rewrite E. apply in_map. exact Hy.
  - exfalso. apply Hnotin. rewrite <- E. apply in_map. exact Hx.
  - exact (IH Hrest Hx Hy E).
Qed.

Lemma wf_write (db db' : Db) : wf db -> write db db' -> wf db'.
Proof.
  intros [Hnd Hlt] Hw. destruct Hw as [now r | now r old _ _ _ | r | k d];
    unfold wf; simpl.
  - split.
    + rewrite map_app. simpl.
      apply (Permutation_NoDup (Permutation_cons_append _ _)).
      constructor; [|exact Hnd].
      intros Hin. apply in_map_iff in Hin. destruct Hin as [x [Hx Hin]].
      rewrite Forall_forall in Hlt. specialize (Hlt x Hin). lia.
    + apply Forall_app. split.
      * eapply Forall_impl; [|exact Hlt]. simpl. intros x Hx. lia.
      * constructor; [simpl; lia | constructor].
  - split.
    + rewrite map_id_rewritten. exact Hnd.
    + rewrite Forall_forall in *. intros x Hin.
      apply in_map_iff in Hin. destruct Hin as [y [Hy Hin]]. subst x.
      rewrite rewriteRow_id. exact (Hlt y Hin).
  - split.
    + apply NoDup_map_filter. exact Hnd.
    + rewrite Forall_forall in *. intros x Hin.
      apply filter_In in Hin. apply Hlt. apply Hin.
  - split; assumption.
Qed.

Lemma wf_writes (db db' : Db) : wf db -> writes db db' -> wf db'.
Proof.
  intros Hwf H. induction H as [|db da db' Hw _ IH]; [exact Hwf|].
  apply IH. exact (wf_write _ _ Hwf Hw).
Qed.

Lemma replyKept_write (reviewId : Z) (rp : Reply.t) (db db' : Db) :
  replyKept reviewId rp db -> write db db' -> replyKept reviewId rp db'.
Proof.
  intros [Hlt Hkept] Hw.
  destruct Hw as [now r | now r old Hold Hseller Hreply | r | k d];
    unfold replyKept, lookupReview in *; simpl.
  - split; [lia|]. intros x. rewrite find_snoc.
    destruct (find _ (reviewRepository db)) as [y|] eqn:Hy.
    + intros Hx. inversion Hx; subst. apply Hkept. reflexivity.
    + simpl. destruct (Z.eqb_spec (nextReviewId db) reviewId); [lia | discriminate].
  - split; [exact Hlt|]. intros x. rewrite lookup_rewritten.
    destruct (find _ (reviewRepository db)) as [y|] eqn:Hy; simpl; [|discriminate].
    intros Hx. inversion Hx; subst x. clear Hx.
    specialize (Hkept y eq_refl).
    unfold rewriteRow. simpl.
    destruct (Z.eqb_spec (Review.id y) (Review.id r)) as [E|E]; [|exact Hkept].
    simpl. apply Hreply.
    assert (Hid : Review.id y = reviewId).
    { apply find_some in Hy. destruct Hy as [_ Hy]. lia. }
    rewrite <- E, Hid, Hy in Hold. inversion Hold; subst. exact Hkept.
  - split; [exact Hlt|]. intros x Hx.
    destruct (Z.eqb_spec (Review.id r) reviewId) as [E|E].
    + rewrite (lookup_after_remove reviewId r _ E) in Hx. discriminate.
    + rewrite find_filter_kept in Hx; [exact (Hkept x Hx)|].
      intros y Hy. unfold otherThan. apply Z.eqb_eq in Hy.
      destruct (Z.eqb_spec (Review.id y) (Review.id r)); [lia | reflexivity].
  - split; assumption.
Qed.

Lemma replyKept_writes (reviewId : Z) (rp : Reply.t) (db db' : Db) :
  replyKept reviewId rp db -> writes db db' -> replyKept reviewId rp db'.
Proof.
  intros Hk H. induction H as [|db da db' Hw _ IH]; [exact Hk|].
  apply IH. exact (replyKept_write _ _ _ _ Hk Hw).
Qed.

(** C4, as the code has it: on a review whose reply is set, addReplyToReview
    always fails and leaves the store untouched, with the already-replied
    error when the caller is the review's seller and with the seller-only error
    for any other caller; and no sequence of requests, whatever writes the
    store rejects along the way, changes that reply while the review exists. *)
Theorem reply_never_overwritten :
  forall (db : Db) (reviewId : Z) (r : Review.t) (rp : Reply.t),
    wf db ->
    lookupReview reviewId db = Some r ->
    Review.reply r = Some rp ->
    (forall o now sellerKey comment,
       addReplyToReview o now reviewId sellerKey comment db =
       (db, Err (if Review.seller r =? sellerKey then alreadyReplied else notTheSeller))) /\
    (forall trace r',
       lookupReview reviewId (run trace db) = Some r' ->
       Review.reply r' = Some rp).
Proof.
  intros db reviewId r rp [_ Hlt] Hr Hrp. split.
  - intros o now sellerKey comment.
    exact (addReplyToReview_replied o now reviewId sellerKey comment db r rp Hr Hrp).
  - intros trace r' Hr'.
    assert (Hk : replyKept reviewId rp db).
    { split.
      - destruct (lookupReview_id _ _ _ Hr) as [Hid Hin].
        rewrite Forall_forall in Hlt. specialize (Hlt r Hin). lia.
      - intros x Hx. rewrite Hr in Hx. inversion Hx; subst. exact Hrp. }
    apply (replyKept_writes _ _ _ _ Hk (run_writes trace db)). exact Hr'.
Qed.

Lemma wf_db2 : wf db2.
Proof.
  split.
  - repeat constructor. simpl. tauto.
  - repeat constructor.
Qed.

Lemma reply_never_overwritten_witness :
  addReplyToReview no_outage 300 1 10 "again"%string db2 = (db2, Err alreadyReplied) /\
  forall r',
    lookupReview 1
      (run [(no_outage, 300, ReportReview 1 8 "spam"%string);
            (no_outage, 400, AddReplyToReview 1 10 "again"%string)] db2) = Some r' ->
    Review.reply r' = Some (Reply.mk "thanks"%string 200).
Proof.
  destruct (reply_never_overwritten db2 1 review2 (Reply.mk "thanks"%string 200)
              wf_db2 eq_refl eq_refl) as [Hfail Hkeep].
  split.
  - exact (Hfail no_outage 300 10 "again"%string).
  - intros r'. apply Hkeep.
Defined.

(** C4, as the claim words it, fails: a caller who is not the review's seller
    gets the seller-only error, not the already-replied one. *)
Lemma replied_review_other_caller_not_conflict :
  lookupReview 1 db2 = Some review2 /\
  Review.reply review2 <> None /\
  addReplyToReview no_outage 300 1 99 "again"%string db2 = (db2, Err notTheSeller) /\
  notTheSeller <> alreadyReplied.
Proof.
  repeat split; try reflexivity; discriminate.
Qed.

(** ** The aggregate counter *)

Lemma count_snoc (k : Z) (rows : list Review.t) (r : Review.t) :
  length (forSeller k (rows ++ [r])) =
  (length (forSeller k rows) + (if (Review.seller r =? k)%Z then 1 else 0))%nat.
Proof.
  unfold forSeller. rewrite filter_app, length_app. simpl.
  destruct (Review.seller r =? k); reflexivity.
Qed.

Lemma filter_otherThan_absent (r : Review.t) (rows : list Review.t) :
  ~ In (Review.id r) (map Review.id rows) -> filter (otherThan r) rows = rows.
Proof.
  induction rows as [|a rows IH]; simpl; intros H; [reflexivity|].
  unfold otherThan at 1.
  destruct (Z.eqb_spec (Review.id a) (Review.id r)) as [E|E]; simpl.
  - exfalso. apply H. left. exact E.
  - f_equal. apply IH. intros Hin. apply H. right. exact Hin.
Qed.

Lemma count_removed (k : Z) (rows : list Review.t) (r : Review.t) :
  NoDup (map Review.id rows) -> In r rows ->
  (length (forSeller k (filter (otherThan r) rows))
   + (if (Review.seller r =? k)%Z then 1 else 0))%nat
  = length (forSeller k rows).
Proof.
  induction rows as [|a rows IH]; simpl; intros Hnd Hin; [contradiction|].
  inversion Hnd as [|? ? Hnotin Hrest]; subst.
  destruct Hin as [->|Hin].
  - unfold otherThan at 1. rewrite Z.eqb_refl. simpl.
    rewrite (filter_otherThan_absent r rows Hnotin).
    destruct (Review.seller r =? k); simpl; lia.
  - assert (Hne : Review.id a <> Review.id r).
    { intros E. apply Hnotin. rewrite E. apply in_map. exact Hin. }
    unfold otherThan at 1.
    destruct (Z.eqb_spec (Review.id a) (Review.id r)) as [E|_]; [contradiction|].
    simpl. specialize (IH Hrest Hin).
    destruct (Review.seller a =? k); simpl; lia.
Qed.

Lemma count_mapped (k : Z) (f : Review.t -> Review.t) (rows : list Review.t) :
  (forall x, In x rows -> Review.seller (f x) = Review.seller x) ->
  length (forSeller k (map f rows)) = length (forSeller k rows).
Proof.
  induction rows as [|a rows IH]; simpl; intros H; [reflexivity|].
  rewrite (H a (or_introl eq_refl)).
  assert (IH' := IH (fun x Hx => H x (or_intror Hx))).
  destruct (Review.seller a =? k); simpl; rewrite IH'; reflexivity.
Qed.

Lemma bump_id (k d : Z) (s : SellerProfile.t) :
  SellerProfile.id (bump k d s) = SellerProfile.id s.
Proof. unfold bump. destruct (SellerProfile.id s =? k); reflexivity. Qed.

Lemma bump_numReviews (k d : Z) (s : SellerProfile.t) :
  SellerProfile.numReviews (bump k d s) =
  SellerProfile.numReviews s + (if SellerProfile.id s =? k then d else 0).
Proof. unfold bump. destruct (SellerProfile.id s =? k); simpl; lia. Qed.

Lemma counters_commit (db db' : Db) :
  wf db -> counters_ok db -> commit db db' -> counters_ok db'.
Proof.
  intros [Hnd _] Hok Hc.
  destruct Hc as [| now r | now r old Hold Hseller | r Hin]; [exact Hok| | |];
    unfold counters_ok, reviewCount in *; simpl.
  - intros s' Hs'. apply in_map_iff in Hs'. destruct Hs' as [s [<- Hs]].
    rewrite bump_id, bump_numReviews, count_snoc, (Hok s Hs). simpl.
    destruct (SellerProfile.id s =? Review.seller r) eqn:E1;
      destruct (Review.seller r =? SellerProfile.id s) eqn:E2; lia.
  - intros s Hs. rewrite (Hok s Hs). f_equal.
    symmetry. apply count_mapped. intros x Hx. unfold rewriteRow. simpl.
    destruct (Z.eqb_spec (Review.id x) (Review.id r)) as [E|E]; [|reflexivity].
    simpl. rewrite Hseller. f_equal.
    destruct (lookupReview_id _ _ _ Hold) as [Hid Hin].
    apply (NoDup_map_unique Review.id (reviewRepository db)); try assumption. lia.
  - intros s' Hs'. apply in_map_iff in Hs'. destruct Hs' as [s [<- Hs]].
    rewrite bump_id, bump_numReviews, (Hok s Hs).
    pose proof (count_removed (SellerProfile.id s) _ r Hnd Hin) as Hcount.
    destruct (SellerProfile.id s =? Review.seller r) eqn:E1;
      destruct (Review.seller r =? SellerProfile.id s) eqn:E2; lia.
Qed.

Lemma createReview_counts (o : Outage) (now : Z) (data : CreateReviewDto.t)
  (db db' : Db) (r : ReviewObject) :
  createReview o now data db = (db', Ok r) ->
  In (entity r) (reviewRepository db') /\
  reviewCount (Review.seller (entity r)) db' =
  reviewCount (Review.seller (entity r)) db + 1.
Proof.
  intros H. apply createReview_ok_inv in H.
  destruct H as (s & u & k & _ & _ & _ & _ & _ & _ & -> & ->).
  unfold reviewCount. simpl. split.
  - apply in_or_app. right. left. reflexivity.
  - rewrite count_snoc. simpl. rewrite Z.eqb_refl. lia.
Qed.

Lemma deleteReview_counts (o : Outage) (reviewId userId : Z) (db db' : Db) (r : Review.t) :
  wf db ->
  lookupReview reviewId db = Some r ->
  deleteReview o reviewId userId db = (db', Ok tt) ->
  lookupReview reviewId db' = None /\
  reviewCount (Review.seller r) db' = reviewCount (Review.seller r) db - 1.
Proof.
  intros [Hnd _] Hr H.
  destruct (lookupReview_id _ _ _ Hr) as [Hid Hin].
  rewrite (deleteReview_found _ _ _ _ _ Hr) in H. unfold_task.
  destruct (o RemoveReview); [discriminate|].
  destruct (o UpdateCounter); [discriminate|].
  inversion H; subst db'. unfold reviewCount, lookupReview. simpl. split.
  - apply lookup_after_remove. exact Hid.
  - pose proof (count_removed (Review.seller r) _ r Hnd Hin) as Hcount.
    rewrite Z.eqb_refl in Hcount. lia.
Qed.

(** C1, as the code has it: the counter update is a write of its own, issued
    after the insert or the removal.  Whenever the store does not reject that
    update, every request (createReview and deleteReview among them) keeps
    numReviews of every seller equal to the number of stored reviews that
    reference it; a createReview that resolves has added one review of its
    seller and a deleteReview that resolves has taken one away. *)
Theorem numReviews_matches_stored_reviews :
  forall (o : Outage) (now : Z) (db : Db),
    o UpdateCounter = false ->
    wf db -> counters_ok db ->
    (forall c, wf (exec o now c db) /\ counters_ok (exec o now c db)) /\
    (forall data db' r,
       createReview o now data db = (db', Ok r) ->
       In (entity r) (reviewRepository db') /\
       reviewCount (Review.seller (entity r)) db' =
       reviewCount (Review.seller (entity r)) db + 1) /\
    (forall reviewId userId db' r,
       lookupReview reviewId db = Some r ->
       deleteReview o reviewId userId db = (db', Ok tt) ->
       lookupReview reviewId db' = None /\
       reviewCount (Review.seller r) db' = reviewCount (Review.seller r) db - 1).
Proof.
  intros o now db Ec Hwf Hok. split; [|split].
  - intros c. split.
    + exact (wf_writes _ _ Hwf (exec_writes o now c db)).
    + exact (counters_commit _ _ Hwf Hok (exec_commit o now c db Ec)).
  - intros data db' r. apply createReview_counts.
  - intros reviewId userId db' r. apply deleteReview_counts. exact Hwf.
Qed.

Lemma counters_ok_db0 : counters_ok db0.
Proof. intros s [<-|[]]. reflexivity. Qed.

Lemma wf_db0 : wf db0.
Proof. split; constructor. Qed.

Lemma numReviews_matches_stored_reviews_witness :
  (wf db1 /\ counters_ok db1) /\
  reviewCount 10 db1 = reviewCount 10 db0 + 1.
Proof.
  destruct (numReviews_matches_stored_reviews no_outage 100 db0
              eq_refl wf_db0 counters_ok_db0) as (Hinv & Hcreate & _).
  split.
  - exact (Hinv (CreateReview dto0)).
  - exact (proj2 (Hcreate dto0 db1 (mkObject review1 (Some 30) None) eq_refl)).
Defined.

(** C1, as the claim words it, fails: the two writes are not one transaction.
    When the store rejects the counter update, createReview throws with the
    review already inserted and deleteReview throws with the review already
    removed, and the counter no longer matches the stored rows. *)
Lemma review_write_commits_without_counter :
  (counters_ok db0 /\
   createReview counter_update_fails 100 dto0 db0 =
     (mkDb [review1] (userRepository db0) [seller10] 2, Err queryFailed) /\
   ~ counters_ok (fst (createReview counter_update_fails 100 dto0 db0))) /\
  (counters_ok db1 /\
   deleteReview counter_update_fails 1 30 db1 =
     (mkDb [] (userRepository db0) [SellerProfile.mk 10 7 1] 2, Err queryFailed) /\
   ~ counters_ok (fst (deleteReview counter_update_fails 1 30 db1))).
Proof.
  split; split; [exact counters_ok_db0 | | | ].
  - split; [reflexivity|]. intros H.
    specialize (H seller10 (or_introl eq_refl)). discriminate.
  - intros s [<-|[]]. reflexivity.
  - split; [reflexivity|]. intros H.
    specialize (H (SellerProfile.mk 10 7 1) (or_introl eq_refl)). discriminate.
Qed.

(** ** getSellerStats *)

(** The query computes the count and the mean of the seller's ratings, and
    the raw row holds them under the names the store answers with. *)
Lemma getRawOne_columns (rows : list Review.t) :
  property "totalreviews" (getRawOne rows) =
    Some (RawNumber (inject_Z (Z.of_nat (length rows)))) /\
  property "averagerating" (getRawOne rows) =
    Some (match rows with
          | [] => RawNull
          | _ :: _ => RawNumber (sumRatings rows # Pos.of_nat (length rows))
          end).
Proof. split; [reflexivity|]. destruct rows; reflexivity. Qed.

(** The service reads the two names as the query spells them; the row has
    neither of them. *)
Lemma getRawOne_keys (rows : list Review.t) :
  property "totalReviews" (getRawOne rows) = None /\
  property "averageRating" (getRawOne rows) = None.
Proof. split; reflexivity. Qed.

Lemma getSellerStats_zero (sellerKey : Z) (db : Db) :
  getSellerStats sellerKey db = mkStats 0 0.
Proof. reflexivity. Qed.

(** C5, where the code departs from it.  Seller 10 has one stored review,
    rated 5.  The query computes count 1 and mean 5, and the store answers
    with them under the names totalreviews and averagerating.  getSellerStats
    reads totalReviews and averageRating, finds neither, and returns 0 for
    both. *)
Theorem getSellerStats_misses_stored_review :
  forSeller 10 (reviewRepository db1) = [review1] /\
  Review.rating review1 = 5 /\
  getRawOne (forSeller 10 (reviewRepository db1)) =
    [("totalreviews"%string, RawNumber 1); ("averagerating"%string, RawNumber 5)] /\
  getSellerStats 10 db1 = mkStats 0 0.
Proof. repeat split. Qed.

(** ** getSellerReviews *)

Lemma getSellerReviews_zero_limit (sellerKey page : Z) (db : Db) :
  getSellerReviews sellerKey page 0 db =
  Ok (mkPage (orderByCreatedAtDesc (forSeller sellerKey (reviewRepository db)))
             (reviewCount sellerKey db) (reviewCount sellerKey db >? 0)).
Proof.
  unfold getSellerReviews, skipTake, reviewCount.
  rewrite !Z.mul_0_r. reflexivity.
Qed.

(** C7, as the code has it.  getSellerReviews checks neither page nor limit.
    With limit = 0, whatever the page, it resolves with every review of the
    seller, newest first, the seller's review count as total and
    hasMore = total > 0.  Every other call with a non-positive page or limit
    fails, and it is the store that refuses it: the negative OFFSET when
    (page-1)*limit is negative, the negative LIMIT otherwise. *)
Theorem getSellerReviews_non_positive_arguments :
  forall (sellerKey page limit : Z) (db : Db),
    page <= 0 \/ limit <= 0 ->
    (limit = 0 ->
     getSellerReviews sellerKey page limit db =
     Ok (mkPage (orderByCreatedAtDesc (forSeller sellerKey (reviewRepository db)))
                (reviewCount sellerKey db) (reviewCount sellerKey db >? 0))) /\
    (0 < limit ->
     getSellerReviews sellerKey page limit db = Err negativeOffset) /\
    (limit < 0 -> 2 <= page ->
     getSellerReviews sellerKey page limit db = Err negativeOffset) /\
    (limit < 0 -> page <= 1 ->
     getSellerReviews sellerKey page limit db = Err negativeLimit).
Proof.
  intros sellerKey page limit db Hnp. repeat split.
  - intros ->. apply getSellerReviews_zero_limit.
  - intros Hpos. unfold getSellerReviews, skipTake.
    assert ((page - 1) * limit < 0) as Hskip by (apply Z.mul_neg_pos; lia).
    destruct (Z.ltb_spec ((page - 1) * limit) 0) as [_|Hge]; [reflexivity | lia].
  - intros Hneg Hpage. unfold getSellerReviews, skipTake.
    assert ((page - 1) * limit < 0) as Hskip by (apply Z.mul_pos_neg; lia).
    destruct (Z.ltb_spec ((page - 1) * limit) 0) as [_|Hge]; [reflexivity | lia].
  - intros Hneg Hpage. unfold getSellerReviews, skipTake.
    assert (0 <= (page - 1) * limit) as Hskip by (apply Z.mul_nonpos_nonpos; lia).
    destruct (Z.ltb_spec ((page - 1) * limit) 0) as [Hlt|_]; [lia|].
    destruct (Z.ltb_spec limit 0) as [_|Hge]; [reflexivity | lia].
Qed.

Lemma getSellerReviews_non_positive_arguments_witness :
  getSellerReviews 10 (-3) 0 db1 = Ok (mkPage [review1] 1 true) /\
  getSellerReviews 10 0 5 db1 = Err negativeOffset /\
  getSellerReviews 10 2 (-5) db1 = Err negativeOffset /\
  getSellerReviews 10 1 (-5) db1 = Err negativeLimit.
Proof.
  split; [|split; [|split]].
  - destruct (getSellerReviews_non_positive_arguments 10 (-3) 0 db1) as (H & _); [lia|].
    apply H. reflexivity.
  - destruct (getSellerReviews_non_positive_arguments 10 0 5 db1) as (_ & H & _); [lia|].
    apply H. lia.
  - destruct (getSellerReviews_non_positive_arguments 10 2 (-5) db1) as (_ & _ & H & _);
      [lia|].
    apply H; lia.
  - destruct (getSellerReviews_non_positive_arguments 10 1 (-5) db1) as (_ & _ & _ & H);
      [lia|].
    apply H; lia.
Defined.

(** C7, as the claim words it, fails: page 0 with limit 0 is answered with
    the seller's one review, not rejected. *)
Lemma getSellerReviews_non_positive_answered :
  getSellerReviews 10 0 0 db1 = Ok (mkPage [review1] 1 true).
Proof. reflexivity. Qed.

Section Sortedness.
Context {A : Type}.
Variables R S : A -> A -> Prop.




End Sortedness.


Lemma orderByCreatedAtDesc_perm (rows : list Review.t) :
  Permutation rows (orderByCreatedAtDesc rows).
Proof. apply ByDate.Permuted_sort. Qed.


Lemma skipTake_positive {A : Type} (skip take : Z) (rows : list A) :
  0 <= skip -> 1 <= take ->
  skipTake skip take rows =
  Ok (firstn (Z.to_nat take) (skipn (Z.to_nat skip) rows)).
Proof.
  intros Hskip Htake. unfold skipTake.
  destruct (Z.ltb_spec skip 0) as [Hneg|_]; [lia|].
  destruct (Z.ltb_spec take 0) as [Hneg|_]; [lia|].
  destruct (Z.eqb_spec take 0) as [Hzero|_]; [lia|].
  reflexivity.
Qed.





(** * Further properties of the service *)

(** ** createReview: refusals, the stored row, repeated reviews *)

(** X1. With a rating in range, createReview refuses an unknown seller with
    the seller error, and a known seller with an unknown reviewer with the user
    error; in both cases nothing is written, whatever the store would have
    accepted. *)
Theorem createReview_unknown_seller_or_user :
  forall (o : Outage) (now : Z) (data : CreateReviewDto.t) (db : Db),
    1 <= CreateReviewDto.rating data <= 5 ->
    (find (fun x => SellerProfile.userId x =? CreateReviewDto.sellerId data)
          (sellerRepository db) = None ->
     createReview o now data db = (db, Err sellerNotFound)) /\
    (forall s,
       find (fun x => SellerProfile.userId x =? CreateReviewDto.sellerId data)
            (sellerRepository db) = Some s ->
       find (fun x => User.id x =? CreateReviewDto.reviewerId data)
            (userRepository db) = None ->
       createReview o now data db = (db, Err userNotFound)).
Proof.
  intros o now data db Hr. apply rating_guard in Hr. split.
  - intros Hs. unfold createReview. rewrite Hr. unfold_task. rewrite Hs. reflexivity.
  - intros s Hs Hu. unfold createReview. rewrite Hr. unfold_task.
    rewrite Hs, Hu. reflexivity.
Qed.

Lemma createReview_unknown_seller_or_user_witness :
  createReview no_outage 100 (CreateReviewDto.mk 8 3 5 "x"%string) db0 =
    (db0, Err sellerNotFound) /\
  createReview no_outage 100 (CreateReviewDto.mk 7 9 5 "x"%string) db0 =
    (db0, Err userNotFound).
Proof.
  split.
  - apply (createReview_unknown_seller_or_user no_outage 100
             (CreateReviewDto.mk 8 3 5 "x"%string) db0); [simpl; lia | reflexivity].
  - apply (proj2 (createReview_unknown_seller_or_user no_outage 100
             (CreateReviewDto.mk 7 9 5 "x"%string) db0 ltac:(simpl; lia)) seller10);
      reflexivity.
Defined.

Lemma reviewOf_entity (s : SellerProfile.t) (u : User.t) (data : CreateReviewDto.t) :
  entity (reviewOf s u data) =
  Review.mk 0 None (SellerProfile.id s) (CreateReviewDto.rating data)
    (CreateReviewDto.comment data) None false None None 0 0.
Proof.
  unfold reviewOf.
  destruct (User.buyerProfile u); [reflexivity|].
  destruct (User.sellerProfile u); reflexivity.
Qed.

Lemma lookup_unused_key (db : Db) :
  wf db -> lookupReview (nextReviewId db) db = None.
Proof.
  intros [_ Hlt]. unfold lookupReview.
  destruct (find _ (reviewRepository db)) as [x|] eqn:Hx; [|reflexivity].
  apply find_some in Hx. destruct Hx as [Hin Hid].
  rewrite Forall_forall in Hlt. specialize (Hlt x Hin). lia.
Qed.

Lemma lookup_inserted (now reviewId : Z) (r : Review.t) (db : Db) :
  lookupReview reviewId (inserted now r db) =
  match lookupReview reviewId db with
  | Some y => Some y
  | None => if nextReviewId db =? reviewId
            then Some (stamp (nextReviewId db) now r) else None
  end.
Proof.
  unfold lookupReview. simpl.
  exact (find_snoc (fun x => Review.id x =? reviewId) (reviewRepository db)
           (stamp (nextReviewId db) now r)).
Qed.

(** X2. A createReview that resolves on a well-formed store has stored one
    new row under a key no review had: the generated key, the found seller,
    the rating and comment of the request, no reply, not reported, both dates
    set to the time of the call.  The row is found again under its key and
    every other key finds what it found before. *)
Theorem createReview_row_found_again :
  forall (o : Outage) (now : Z) (data : CreateReviewDto.t) (db db' : Db)
         (r : ReviewObject),
    wf db ->
    createReview o now data db = (db', Ok r) ->
    exists s,
      find (fun x => SellerProfile.userId x =? CreateReviewDto.sellerId data)
           (sellerRepository db) = Some s /\
      entity r =
        Review.mk (nextReviewId db) None (SellerProfile.id s)
          (CreateReviewDto.rating data) (CreateReviewDto.comment data)
          None false None None now now /\
      lookupReview (nextReviewId db) db = None /\
      lookupReview (nextReviewId db) db' = Some (entity r) /\
      (forall j, j <> nextReviewId db -> lookupReview j db' = lookupReview j db) /\
      nextReviewId db' = nextReviewId db + 1.
Proof.
  intros o now data db db' r Hwf H.
  apply createReview_ok_inv in H.
  destruct H as (s & u & k & _ & Hs & _ & _ & _ & _ & -> & ->).
  exists s. split; [exact Hs|].
  pose proof (lookup_unused_key db Hwf) as Hnone.
  assert (Hent : entity (onEntity (stamp (nextReviewId db) now) (reviewOf s u data)) =
                 Review.mk (nextReviewId db) None (SellerProfile.id s)
                   (CreateReviewDto.rating data) (CreateReviewDto.comment data)
                   None false None None now now).
  { simpl. rewrite reviewOf_entity. reflexivity. }
  split; [exact Hent|]. split; [exact Hnone|]. split; [|split].
  - change (lookupReview (nextReviewId db)
              (inserted now (entity (reviewOf s u data)) db) =
            Some (entity (onEntity (stamp (nextReviewId db) now) (reviewOf s u data)))).
    rewrite lookup_inserted, Hnone, Z.eqb_refl. reflexivity.
  - intros j Hj.
    change (lookupReview j (inserted now (entity (reviewOf s u data)) db) =
            lookupReview j db).
    rewrite lookup_inserted.
    destruct (lookupReview j db); [reflexivity|].
    destruct (Z.eqb_spec (nextReviewId db) j); [congruence | reflexivity].
  - reflexivity.
Qed.

Lemma createReview_row_found_again_witness :
  lookupReview 1 db0 = None /\ lookupReview 1 db1 = Some review1.
Proof.
  destruct (createReview_row_found_again no_outage 100 dto0 db0 db1
              (mkObject review1 (Some 30) None) wf_db0 eq_refl)
    as (s & _ & _ & Hnone & Hfound & _).
  split; [exact Hnone | exact Hfound].
Defined.

Lemma find_seller_bumped (uid k d : Z) (rows : list SellerProfile.t) :
  find (fun x => SellerProfile.userId x =? uid) (map (bump k d) rows) =
  option_map (bump k d) (find (fun x => SellerProfile.userId x =? uid) rows).
Proof.
  apply find_map_stable with (p := fun x => SellerProfile.userId x =? uid).
  intros x. unfold bump. destruct (SellerProfile.id x =? k); reflexivity.
Qed.

(** X3. createReview has no check against repeats: when a request has
    resolved, the very same request (same seller, same reviewer) on the
    resulting store resolves again, with the next key, and the seller then
    has two more reviews than at the start. *)
Theorem createReview_repeat_accepted :
  forall (o : Outage) (now now2 : Z) (data : CreateReviewDto.t) (db db' : Db)
         (r : ReviewObject),
    createReview o now data db = (db', Ok r) ->
    exists db'' r2,
      createReview o now2 data db' = (db'', Ok r2) /\
      Review.id (entity r2) = Review.id (entity r) + 1 /\
      Review.seller (entity r2) = Review.seller (entity r) /\
      reviewCount (Review.seller (entity r)) db'' =
      reviewCount (Review.seller (entity r)) db + 2.
Proof.
  intros o now now2 data db db' r H.
  apply createReview_ok_inv in H.
  destruct H as (s & u & k & Hr & Hs & Hu & Hk & Hi & Hc & -> & ->).
  set (db' := counted (SellerProfile.id s) 1 (inserted now (entity (reviewOf s u data)) db)).
  assert (Hs' : find (fun x => SellerProfile.userId x =? CreateReviewDto.sellerId data)
                     (sellerRepository db') = Some (bump (SellerProfile.id s) 1 s)).
  { subst db'. simpl. rewrite find_seller_bumped, Hs. reflexivity. }
  assert (Hu' : find (fun x => User.id x =? CreateReviewDto.reviewerId data)
                     (userRepository db') = Some u) by exact Hu.
  rewrite (createReview_accepted o now2 data db' _ u k Hr Hs' Hu' Hk).
  unfold_task. rewrite Hi, Hc.
  eexists. eexists. split; [reflexivity|].
  simpl. rewrite !reviewOf_entity. simpl. rewrite bump_id. simpl.
  split; [reflexivity|]. split; [reflexivity|].
  unfold reviewCount. simpl. rewrite !count_snoc. simpl.
  rewrite reviewOf_seller, !Z.eqb_refl. lia.
Qed.

Lemma createReview_repeat_accepted_witness :
  exists db'' r2,
    createReview no_outage 150 dto0 db1 = (db'', Ok r2) /\
    Review.id (entity r2) = 2 /\
    reviewCount 10 db'' = 2.
Proof.
  destruct (createReview_repeat_accepted no_outage 100 150 dto0 db0 db1
              (mkObject review1 (Some 30) None) eq_refl)
    as (db'' & r2 & Hcall & Hid & _ & Hcount).
  exists db'', r2. split; [exact Hcall|]. split; [exact Hid | exact Hcount].
Defined.

(** ** addReplyToReview and reportReview: success, refusals, all or nothing *)

(** X4. On an existing review without a reply, the review's own seller can
    reply when the store accepts the write: the stored review then carries
    the comment with the time of the call, and every later reply attempt by
    that seller is refused with the already-replied error and changes
    nothing. *)
Theorem addReplyToReview_once :
  forall (o : Outage) (now reviewId : Z) (comment : string) (db : Db) (r : Review.t),
    o UpdateReview = false ->
    lookupReview reviewId db = Some r ->
    Review.reply r = None ->
    exists db' r',
      addReplyToReview o now reviewId (Review.seller r) comment db = (db', Ok r') /\
      Review.reply (entity r') = Some (Reply.mk comment now) /\
      lookupReview reviewId db' = Some (entity r') /\
      forall o2 now2 comment2,
        addReplyToReview o2 now2 reviewId (Review.seller r) comment2 db' =
        (db', Err alreadyReplied).
Proof.
  intros o now reviewId comment db r Ho Hr Hnone.
  pose proof (lookupReview_id _ _ _ Hr) as [Hid _].
  exists (rewritten now (setReply (Reply.mk comment now) r) db).
  exists (instance (touch now (setReply (Reply.mk comment now) r))).
  assert (Hfind : lookupReview reviewId
                    (rewritten now (setReply (Reply.mk comment now) r) db) =
                  Some (touch now (setReply (Reply.mk comment now) r))).
  { apply (lookup_after_update now reviewId _ r db Hr). exact Hid. }
  split; [|split; [reflexivity | split; [exact Hfind|]]].
  - unfold addReplyToReview, bind, findReview, throw. rewrite Hr. simpl.
    rewrite Z.eqb_refl, Hnone. simpl.
    rewrite (update_store _ _ _ _ Ho). reflexivity.
  - intros o2 now2 comment2.
    rewrite (addReplyToReview_replied o2 now2 reviewId (Review.seller r) comment2 _ _
               (Reply.mk comment now) Hfind eq_refl).
    simpl. rewrite Z.eqb_refl. reflexivity.
Qed.

Lemma addReplyToReview_once_witness :
  exists db' r',
    addReplyToReview no_outage 200 1 10 "thanks"%string db1 = (db', Ok r') /\
    Review.reply (entity r') = Some (Reply.mk "thanks"%string 200) /\
    addReplyToReview no_outage 300 1 10 "again"%string db' = (db', Err alreadyReplied).
Proof.
  destruct (addReplyToReview_once no_outage 200 1 "thanks"%string db1 review1
              eq_refl eq_refl eq_refl) as (db' & r' & Hcall & Hreply & _ & Hagain).
  exists db', r'. split; [exact Hcall|]. split; [exact Hreply|].
  exact (Hagain no_outage 300 "again"%string).
Defined.

(** A request for a review that is not stored is refused before anything is
    written: as not found when the id fits the key column, by the store when
    it does not. *)
Lemma missing_review_refused (reviewId : Z) (db : Db) :
  lookupReview reviewId db = None ->
  (forall o userId,
     deleteReview o reviewId userId db = (db, Err (missingReview reviewId))) /\
  (forall o now k comment,
     addReplyToReview o now reviewId k comment db = (db, Err (missingReview reviewId))) /\
  (forall o now reporter reason,
     reportReview o now reviewId reporter reason db = (db, Err (missingReview reviewId))).
Proof.
  intros Hnone. unfold missingReview. split; [|split]; intros.
  - unfold deleteReview, bind, findReview. rewrite Hnone.
    destruct (inKeyRange reviewId); reflexivity.
  - unfold addReplyToReview, bind, findReview. rewrite Hnone.
    destruct (inKeyRange reviewId); reflexivity.
  - unfold reportReview, bind, findReview. rewrite Hnone.
    destruct (inKeyRange reviewId); reflexivity.
Qed.

(** X5. addReplyToReview and reportReview refuse an id no stored review has:
    with the not-found error when the id fits the 32-bit key column, and with
    the store's own error when it does not.  addReplyToReview refuses any
    caller other than the review's seller with the seller-only error.  A
    refusal happens before any write. *)
Theorem reply_and_report_refusals :
  forall (o : Outage) (now reviewId : Z) (db : Db),
    (lookupReview reviewId db = None ->
     -2147483648 <= reviewId <= 2147483647 ->
     (forall k comment,
        addReplyToReview o now reviewId k comment db = (db, Err reviewNotFound)) /\
     (forall reporter reason,
        reportReview o now reviewId reporter reason db = (db, Err reviewNotFound))) /\
    (lookupReview reviewId db = None ->
     reviewId < -2147483648 \/ 2147483647 < reviewId ->
     (forall k comment,
        addReplyToReview o now reviewId k comment db = (db, Err queryFailed)) /\
     (forall reporter reason,
        reportReview o now reviewId reporter reason db = (db, Err queryFailed))) /\
    (forall r k comment,
       lookupReview reviewId db = Some r ->
       Review.seller r <> k ->
       addReplyToReview o now reviewId k comment db = (db, Err notTheSeller)).
Proof.
  intros o now reviewId db. split; [|split].
  - intros Hnone Hrange.
    destruct (missing_review_refused reviewId db Hnone) as (_ & Hreply & Hreport).
    assert (missingReview reviewId = reviewNotFound) as E.
    { unfold missingReview, inKeyRange.
      destruct (Z.leb_spec (-2147483648) reviewId); [|lia].
      destruct (Z.leb_spec reviewId 2147483647); [reflexivity | lia]. }
    rewrite E in Hreply, Hreport. split; intros; [apply Hreply | apply Hreport].
  - intros Hnone Hrange.
    destruct (missing_review_refused reviewId db Hnone) as (_ & Hreply & Hreport).
    assert (missingReview reviewId = queryFailed) as E.
    { unfold missingReview, inKeyRange.
      destruct (Z.leb_spec (-2147483648) reviewId); [|reflexivity].
      destruct (Z.leb_spec reviewId 2147483647); [lia | reflexivity]. }
    rewrite E in Hreply, Hreport. split; intros; [apply Hreply | apply Hreport].
  - intros r k comment Hr Hne. unfold addReplyToReview, bind, findReview, throw.
    rewrite Hr. simpl.
    destruct (Z.eqb_spec (Review.seller r) k); [contradiction | reflexivity].
Qed.

Lemma reply_and_report_refusals_witness :
  addReplyToReview no_outage 200 5 10 "x"%string db1 = (db1, Err reviewNotFound) /\
  reportReview no_outage 200 5 8 "x"%string db1 = (db1, Err reviewNotFound) /\
  addReplyToReview no_outage 200 2147483648 10 "x"%string db1 = (db1, Err queryFailed) /\
  reportReview no_outage 200 2147483648 8 "x"%string db1 = (db1, Err queryFailed) /\
  addReplyToReview no_outage 200 1 11 "x"%string db1 = (db1, Err notTheSeller).
Proof.
  destruct (reply_and_report_refusals no_outage 200 5 db1) as (Hmissing & _ & _).
  destruct (reply_and_report_refusals no_outage 200 2147483648 db1) as (_ & Hrefused & _).
  destruct (reply_and_report_refusals no_outage 200 1 db1) as (_ & _ & Hother).
  destruct (Hmissing eq_refl ltac:(lia)) as [Hreply Hreport].
  destruct (Hrefused eq_refl ltac:(lia)) as [Hreply' Hreport'].
  split; [apply Hreply|]. split; [apply Hreport|].
  split; [apply Hreply'|]. split; [apply Hreport'|].
  apply (Hother review1); [reflexivity | simpl; lia].
Defined.

(** X6. addReplyToReview and reportReview issue a single write: whenever
    either of them throws, for whatever reason and whatever the store rejects,
    the store is exactly as it was before the call. *)
Theorem reply_and_report_all_or_nothing :
  forall (o : Outage) (now reviewId : Z) (db : Db),
    (forall k comment m,
       snd (addReplyToReview o now reviewId k comment db) = Err m ->
       fst (addReplyToReview o now reviewId k comment db) = db) /\
    (forall reporter reason m,
       snd (reportReview o now reviewId reporter reason db) = Err m ->
       fst (reportReview o now reviewId reporter reason db) = db).
Proof.
  intros o now reviewId db. split.
  - intros k comment m. unfold addReplyToReview, bind, findReview, throw.
    destruct (lookupReview reviewId db) as [r|]; simpl;
      [|destruct (inKeyRange reviewId); reflexivity].
    destruct (negb _); simpl; [reflexivity|].
    destruct (Review.reply r); simpl; [reflexivity|].
    unfold update. destruct (o UpdateReview); simpl; [reflexivity | discriminate].
  - intros reporter reason m. unfold reportReview, bind, findReview, throw.
    destruct (lookupReview reviewId db) as [r|]; simpl;
      [|destruct (inKeyRange reviewId); reflexivity].
    unfold update. destruct (o UpdateReview); simpl; [reflexivity | discriminate].
Qed.

Lemma reply_and_report_all_or_nothing_witness :
  fst (addReplyToReview (fun _ => true) 200 1 10 "thanks"%string db1) = db1 /\
  fst (reportReview (fun _ => true) 200 1 8 "spam"%string db1) = db1.
Proof.
  destruct (reply_and_report_all_or_nothing (fun _ => true) 200 1 db1) as [Hreply Hreport].
  split.
  - apply (Hreply 10 "thanks"%string queryFailed). reflexivity.
  - apply (Hreport 8 "spam"%string queryFailed). reflexivity.
Defined.

(** ** deleteReview: what is gone and what stays *)

Lemma deleteReview_ok_inv (o : Outage) (reviewId userId : Z) (db db' : Db) :
  deleteReview o reviewId userId db = (db', Ok tt) ->
  exists r,
    lookupReview reviewId db = Some r /\
    db' = counted (Review.seller r) (-1) (removed r db).
Proof.
  intros H. destruct (lookupReview reviewId db) as [r|] eqn:Hr.
  - exists r. split; [reflexivity|].
    rewrite (deleteReview_found _ _ _ _ _ Hr) in H. unfold_task.
    destruct (o RemoveReview); [discriminate|]. simpl in H.
    destruct (o UpdateCounter); [discriminate|]. congruence.
  - unfold deleteReview, bind, findReview, throw in H. rewrite Hr in H.
    destruct (inKeyRange reviewId); discriminate.
Qed.

Lemma lookup_removed_other (reviewId : Z) (r : Review.t) (db : Db) :
  Review.id r <> reviewId ->
  lookupReview reviewId (removed r db) = lookupReview reviewId db.
Proof.
  intros Hne. unfold lookupReview. simpl. apply find_filter_kept.
  intros y Hy. unfold otherThan. apply Z.eqb_eq in Hy.
  destruct (Z.eqb_spec (Review.id y) (Review.id r)); [lia | reflexivity].
Qed.

(** X7. deleteReview on an id no stored review has writes nothing and fails:
    with the not-found error when the id fits the 32-bit key column, with the
    store's own error when it does not.  After a deleteReview that resolved,
    the review is not found any more: for an id that fits the key column, a
    second deleteReview, a reply and a report on it all fail with the
    not-found error and leave the store as it is. *)
Theorem deleted_review_not_found :
  forall (o : Outage) (reviewId userId : Z) (db : Db),
    (lookupReview reviewId db = None ->
     -2147483648 <= reviewId <= 2147483647 ->
     deleteReview o reviewId userId db = (db, Err reviewNotFound)) /\
    (lookupReview reviewId db = None ->
     reviewId < -2147483648 \/ 2147483647 < reviewId ->
     deleteReview o reviewId userId db = (db, Err queryFailed)) /\
    (forall db',
       deleteReview o reviewId userId db = (db', Ok tt) ->
       lookupReview reviewId db' = None /\
       (-2147483648 <= reviewId <= 2147483647 ->
        (forall o2 caller,
           deleteReview o2 reviewId caller db' = (db', Err reviewNotFound)) /\
        (forall o2 now k comment,
           addReplyToReview o2 now reviewId k comment db' = (db', Err reviewNotFound)) /\
        (forall o2 now reporter reason,
           reportReview o2 now reviewId reporter reason db' = (db', Err reviewNotFound)))).
Proof.
  assert (Hin : forall reviewId, -2147483648 <= reviewId <= 2147483647 ->
                  missingReview reviewId = reviewNotFound).
  { intros reviewId Hrange. unfold missingReview, inKeyRange.
    destruct (Z.leb_spec (-2147483648) reviewId); [|lia].
    destruct (Z.leb_spec reviewId 2147483647); [reflexivity | lia]. }
  intros o reviewId userId db. split; [|split].
  - intros Hnone Hrange.
    destruct (missing_review_refused reviewId db Hnone) as (Hdelete & _).
    rewrite <- (Hin reviewId Hrange). apply Hdelete.
  - intros Hnone Hrange.
    destruct (missing_review_refused reviewId db Hnone) as (Hdelete & _).
    rewrite Hdelete. unfold missingReview, inKeyRange.
    destruct (Z.leb_spec (-2147483648) reviewId); [|reflexivity].
    destruct (Z.leb_spec reviewId 2147483647); [lia | reflexivity].
  - intros db' H. apply deleteReview_ok_inv in H. destruct H as (r & Hr & ->).
    assert (Hgone : lookupReview reviewId
                      (counted (Review.seller r) (-1) (removed r db)) = None).
    { unfold lookupReview. simpl. apply lookup_after_remove.
      apply (lookupReview_id _ _ _ Hr). }
    split; [exact Hgone|]. intros Hrange.
    destruct (missing_review_refused reviewId _ Hgone) as (Hdelete & Hreply & Hreport).
    rewrite (Hin reviewId Hrange) in Hdelete, Hreply, Hreport.
    split; [|split]; intros; [apply Hdelete | apply Hreply | apply Hreport].
Qed.

Lemma deleted_review_not_found_witness :
  deleteReview no_outage 5 30 db1 = (db1, Err reviewNotFound) /\
  deleteReview no_outage 2147483648 30 db1 = (db1, Err queryFailed) /\
  deleteReview no_outage 1 30 (fst (deleteReview no_outage 1 30 db1)) =
    (fst (deleteReview no_outage 1 30 db1), Err reviewNotFound).
Proof.
  destruct (deleted_review_not_found no_outage 5 30 db1) as (Hmissing & _ & _).
  destruct (deleted_review_not_found no_outage 2147483648 30 db1) as (_ & Hrefused & _).
  destruct (deleted_review_not_found no_outage 1 30 db1) as (_ & _ & Hafter).
  split; [apply Hmissing; [reflexivity | lia]|].
  split; [apply Hrefused; [reflexivity | lia]|].
  destruct (Hafter (fst (deleteReview no_outage 1 30 db1)) eq_refl) as (_ & Hagain).
  destruct (Hagain ltac:(lia)) as (Hdelete & _).
  apply Hdelete.
Defined.

Lemma length_removed (r : Review.t) (rows : list Review.t) :
  NoDup (map Review.id rows) -> In r rows ->
  (length (filter (otherThan r) rows) + 1)%nat = length rows.
Proof.
  induction rows as [|a rows IH]; simpl; intros Hnd Hin; [contradiction|].
  inversion Hnd as [|? ? Hnotin Hrest]; subst.
  destruct Hin as [->|Hin].
  - unfold otherThan at 1. rewrite Z.eqb_refl. simpl.
    rewrite (filter_otherThan_absent r rows Hnotin). lia.
  - assert (Hne : Review.id a <> Review.id r).
    { intros E. apply Hnotin. rewrite E. apply in_map. exact Hin. }
    unfold otherThan at 1.
    destruct (Z.eqb_spec (Review.id a) (Review.id r)) as [E|_]; [contradiction|].
    simpl. specialize (IH Hrest Hin). lia.
Qed.

(** X8. A deleteReview that resolves on a well-formed store removes exactly
    one row: every other review is found as before, the user table is
    untouched, and the seller table keeps its rows (same keys, same owners). *)
Theorem deleteReview_removes_one_row :
  forall (o : Outage) (reviewId userId : Z) (db db' : Db),
    wf db ->
    deleteReview o reviewId userId db = (db', Ok tt) ->
    (length (reviewRepository db') + 1)%nat = length (reviewRepository db) /\
    (forall j, j <> reviewId -> lookupReview j db' = lookupReview j db) /\
    userRepository db' = userRepository db /\
    map SellerProfile.id (sellerRepository db') = map SellerProfile.id (sellerRepository db) /\
    map SellerProfile.userId (sellerRepository db') =
    map SellerProfile.userId (sellerRepository db).
Proof.
  intros o reviewId userId db db' [Hnd _] H.
  apply deleteReview_ok_inv in H. destruct H as (r & Hr & ->).
  destruct (lookupReview_id _ _ _ Hr) as [Hid Hin]. simpl.
  split; [apply length_removed; assumption|].
  split; [|split; [reflexivity | split]].
  - intros j Hj.
    change (lookupReview j (removed r db) = lookupReview j db).
    apply lookup_removed_other. lia.
  - rewrite map_map. apply map_ext. intros s. apply bump_id.
  - rewrite map_map. apply map_ext. intros s. unfold bump.
    destruct (SellerProfile.id s =? Review.seller r); reflexivity.
Qed.

Lemma wf_db1 : wf db1.
Proof.
  split.
  - repeat constructor. simpl. tauto.
  - repeat constructor.
Qed.

Lemma deleteReview_removes_one_row_witness :
  (length (reviewRepository (fst (deleteReview no_outage 1 99 db1))) + 1)%nat =
    length (reviewRepository db1) /\
  userRepository (fst (deleteReview no_outage 1 99 db1)) = userRepository db1.
Proof.
  destruct (deleteReview_removes_one_row no_outage 1 99 db1
              (fst (deleteReview no_outage 1 99 db1)) wf_db1 eq_refl)
    as (Hlen & _ & Husers & _).
  split; [exact Hlen | exact Husers].
Defined.

(** ** The life of a stored review, over any sequence of requests *)

Lemma request_writes_one (db db' : Db) : request_write db db' -> request_writes db db'.
Proof. intros H. eapply rws_then; [exact H | apply rws_none]. Qed.

Lemma request_writes_trans (db db1 db2 : Db) :
  request_writes db db1 -> request_writes db1 db2 -> request_writes db db2.
Proof.
  intros H. induction H as [|db da db1 Hw _ IH]; intros H2; [exact H2|].
  eapply rws_then; [exact Hw | exact (IH H2)].
Qed.

Lemma createReview_request_writes (o : Outage) (now : Z) (data : CreateReviewDto.t)
  (db : Db) :
  request_writes db (fst (createReview o now data db)).
Proof.
  destruct (createReview o now data db) as [db' res] eqn:H. simpl.
  unfold createReview in H.
  destruct ((CreateReviewDto.rating data <? 1) || (CreateReviewDto.rating data >? 5)) eqn:E;
    [inversion H; apply rws_none|].
  apply rating_guard in E.
  unfold bind at 1, findSellerByUserId in H.
  destruct (find _ (sellerRepository db)) as [s|]; [|inversion H; apply rws_none].
  unfold bind at 1, findUser in H.
  destruct (find _ (userRepository db)) as [u|]; [|inversion H; apply rws_none].
  destruct (orElse _ _); [|inversion H; apply rws_none].
  unfold_task.
  destruct (o InsertReview); [inversion H; apply rws_none|].
  assert (Hins : request_write db (inserted now (entity (reviewOf s u data)) db)).
  { apply rw_insert; rewrite reviewOf_entity; simpl; [exact E | reflexivity | reflexivity]. }
  destruct (o UpdateCounter); inversion H.
  - apply request_writes_one. exact Hins.
  - eapply rws_then; [exact Hins|]. apply request_writes_one. apply rw_counter.
Qed.

Lemma addReplyToReview_request_writes (o : Outage) (now reviewId sellerKey : Z)
  (comment : string) (db : Db) :
  request_writes db (fst (addReplyToReview o now reviewId sellerKey comment db)).
Proof.
  unfold addReplyToReview, bind, findReview, throw.
  destruct (lookupReview reviewId db) as [r|] eqn:Hr;
    [|destruct (inKeyRange reviewId); apply rws_none].
  simpl. destruct (negb _); [apply rws_none|].
  destruct (Review.reply r) as [rp|] eqn:Hrp; [apply rws_none|].
  unfold update. destruct (o UpdateReview); [apply rws_none|].
  apply request_writes_one. simpl. apply rw_reply; [|exact Hrp].
  rewrite (proj1 (lookupReview_id _ _ _ Hr)). exact Hr.
Qed.

Lemma reportReview_request_writes (o : Outage) (now reviewId reporter : Z)
  (reason : string) (db : Db) :
  request_writes db (fst (reportReview o now reviewId reporter reason db)).
Proof.
  unfold reportReview, bind, findReview, throw.
  destruct (lookupReview reviewId db) as [r|] eqn:Hr;
    [|destruct (inKeyRange reviewId); apply rws_none].
  simpl. unfold update. destruct (o UpdateReview); [apply rws_none|].
  apply request_writes_one. simpl. apply rw_report.
  rewrite (proj1 (lookupReview_id _ _ _ Hr)). exact Hr.
Qed.

Lemma exec_request_writes (o : Outage) (now : Z) (c : Call) (db : Db) :
  request_writes db (exec o now c db).
Proof.
  destruct c as [data | k | k page limit | reviewId k comment
                 | reviewId reporter reason | reviewId userId]; simpl.
  - apply createReview_request_writes.
  - apply rws_none.
  - apply rws_none.
  - apply addReplyToReview_request_writes.
  - apply reportReview_request_writes.
  - destruct (deleteReview_store o reviewId userId db) as [->|[r [_ [[_ ->]| ->]]]].
    + apply rws_none.
    + apply request_writes_one. apply rw_remove.
    + eapply rws_then; [apply rw_remove|].
      apply request_writes_one. apply rw_counter.
Qed.

Lemma run_request_writes (trace : list (Outage * Z * Call)) (db : Db) :
  request_writes db (run trace db).
Proof.
  revert db. induction trace as [|[[o now] c] rest IH]; intros db; simpl.
  - apply rws_none.
  - eapply request_writes_trans; [apply exec_request_writes | apply IH].
Qed.

Lemma lookup_rewritten_row (now reviewId : Z) (r : Review.t) (db : Db) :
  lookupReview reviewId (rewritten now r db) =
  option_map (rewriteRow (touch now r)) (lookupReview reviewId db).
Proof. unfold lookupReview. simpl. apply lookup_rewritten. Qed.

(** A rewrite through the stored row [old] of a key changes only that row. *)
Lemma lookup_rewritten_from (now reviewId : Z) (r old y : Review.t) (db : Db) :
  Review.id r = Review.id old ->
  lookupReview (Review.id old) db = Some old ->
  lookupReview reviewId db = Some y ->
  lookupReview reviewId (rewritten now r db) =
  Some (if Review.id y =? Review.id old then touch now r else y) /\
  (Review.id y = Review.id old -> y = old).
Proof.
  intros Hid Hold Hy. rewrite lookup_rewritten_row, Hy. simpl.
  unfold rewriteRow. simpl. rewrite Hid. split; [reflexivity|].
  intros E. destruct (lookupReview_id _ _ _ Hy) as [Hy' _].
  rewrite <- E, Hy', Hy in Hold. congruence.
Qed.

Lemma tracked_write (reviewId : Z) (r0 : Review.t) (db db' : Db) :
  tracked reviewId r0 db -> request_write db db' -> tracked reviewId r0 db'.
Proof.
  intros [Hlt Hev] Hw.
  destruct Hw as [now r _ _ _ | now old rp Hold Hnone | now old reason reporter Hold
                  | r | k d]; unfold tracked.
  - split; [simpl; lia|]. intros x. rewrite lookup_inserted.
    destruct (lookupReview reviewId db) as [y|] eqn:Hy.
    + intros Hx. inversion Hx; subst. apply Hev. reflexivity.
    + destruct (Z.eqb_spec (nextReviewId db) reviewId); [lia | discriminate].
  - split; [exact Hlt|]. intros x Hx.
    destruct (lookupReview reviewId db) as [y|] eqn:Hy.
    + destruct (lookup_rewritten_from now reviewId (setReply rp old) old y db
                  eq_refl Hold Hy) as [Hnew Hsame].
      rewrite Hnew in Hx. inversion Hx; subst x. clear Hx.
      destruct (Z.eqb_spec (Review.id y) (Review.id old)) as [E|E].
      * rewrite <- (Hsame E). rewrite <- (Hsame E) in Hnone.
        apply evolves_reply; [apply Hev; reflexivity | exact Hnone].
      * apply Hev. reflexivity.
    + rewrite lookup_rewritten_row, Hy in Hx. discriminate.
  - split; [exact Hlt|]. intros x Hx.
    destruct (lookupReview reviewId db) as [y|] eqn:Hy.
    + destruct (lookup_rewritten_from now reviewId (setReport reason reporter old) old y db
                  eq_refl Hold Hy) as [Hnew Hsame].
      rewrite Hnew in Hx. inversion Hx; subst x. clear Hx.
      destruct (Z.eqb_spec (Review.id y) (Review.id old)) as [E|E].
      * rewrite <- (Hsame E). apply evolves_report. apply Hev. reflexivity.
      * apply Hev. reflexivity.
    + rewrite lookup_rewritten_row, Hy in Hx. discriminate.
  - split; [exact Hlt|]. intros x Hx.
    destruct (Z.eqb_spec (Review.id r) reviewId) as [E|E].
    + unfold lookupReview in Hx. simpl in Hx.
      rewrite (lookup_after_remove reviewId r _ E) in Hx. discriminate.
    + rewrite (lookup_removed_other _ _ _ E) in Hx. apply Hev. exact Hx.
  - split; [exact Hlt|]. exact Hev.
Qed.

Lemma tracked_writes (reviewId : Z) (r0 : Review.t) (db db' : Db) :
  tracked reviewId r0 db -> request_writes db db' -> tracked reviewId r0 db'.
Proof.
  intros Ht H. induction H as [|db da db' Hw _ IH]; [exact Ht|].
  apply IH. exact (tracked_write _ _ _ _ Ht Hw).
Qed.

Lemma tracked_start (reviewId : Z) (r : Review.t) (db : Db) :
  wf db -> lookupReview reviewId db = Some r -> tracked reviewId r db.
Proof.
  intros [_ Hlt] Hr. split.
  - destruct (lookupReview_id _ _ _ Hr) as [Hid Hin].
    rewrite Forall_forall in Hlt. specialize (Hlt r Hin). lia.
  - intros x Hx. rewrite Hr in Hx. inversion Hx; subst. apply evolves_none.
Qed.

Lemma run_evolves (trace : list (Outage * Z * Call)) (db : Db) (reviewId : Z)
  (r r' : Review.t) :
  wf db ->
  lookupReview reviewId db = Some r ->
  lookupReview reviewId (run trace db) = Some r' ->
  evolves r r'.
Proof.
  intros Hwf Hr Hr'.
  apply (tracked_writes _ _ _ _ (tracked_start _ _ _ Hwf Hr) (run_request_writes trace db)).
  exact Hr'.
Qed.

Lemma evolves_fixed_columns (r r' : Review.t) :
  evolves r r' ->
  Review.id r' = Review.id r /\ Review.buyer r' = Review.buyer r /\
  Review.seller r' = Review.seller r /\ Review.rating r' = Review.rating r /\
  Review.comment r' = Review.comment r /\ Review.createdAt r' = Review.createdAt r.
Proof.
  intros H. induction H as [|r' now rp _ IH _|r' now reason reporter _ IH].
  - repeat split.
  - exact IH.
  - exact IH.
Qed.

Lemma evolves_reported (r r' : Review.t) :
  evolves r r' -> Review.reported r = true ->
  Review.reported r' = true /\ Review.reportReason r' <> None /\
  Review.reporterId r' <> None \/
  Review.reported r' = true /\ Review.reportReason r' = Review.reportReason r /\
  Review.reporterId r' = Review.reporterId r.
Proof.
  intros H Hrep. induction H as [|r' now rp _ IH _|r' now reason reporter _ IH].
  - right. repeat split. exact Hrep.
  - simpl. exact IH.
  - left. simpl. repeat split; discriminate.
Qed.

(** X9. Over any sequence of requests on a well-formed store, whatever the
    store rejects on the way, a review that is still found under its id has
    kept its id, reviewer column, seller, rating, comment and creation date:
    no operation edits them, and a deleted review's id is never given to
    another review. *)
Theorem review_columns_never_edited :
  forall (trace : list (Outage * Z * Call)) (db : Db) (reviewId : Z)
         (r r' : Review.t),
    wf db ->
    lookupReview reviewId db = Some r ->
    lookupReview reviewId (run trace db) = Some r' ->
    Review.id r' = Review.id r /\ Review.buyer r' = Review.buyer r /\
    Review.seller r' = Review.seller r /\ Review.rating r' = Review.rating r /\
    Review.comment r' = Review.comment r /\ Review.createdAt r' = Review.createdAt r.
Proof.
  intros trace db reviewId r r' Hwf Hr Hr'.
  apply evolves_fixed_columns. exact (run_evolves trace db reviewId r r' Hwf Hr Hr').
Qed.

Lemma review_columns_never_edited_witness :
  lookupReview 1 (run busy_trace db1) = Some review1_after /\
  Review.rating review1_after = Review.rating review1 /\
  Review.createdAt review1_after = Review.createdAt review1.
Proof.
  destruct (review_columns_never_edited busy_trace db1 1 review1 review1_after
              wf_db1 eq_refl eq_refl) as (_ & _ & _ & Hrating & _ & Hcreated).
  split; [reflexivity|]. split; [exact Hrating | exact Hcreated].
Defined.

(** X10. Nothing clears a report: over any sequence of requests on a
    well-formed store, a review that was reported and is still found is still
    reported, with a reason and a reporter recorded. *)
Theorem report_never_cleared :
  forall (trace : list (Outage * Z * Call)) (db : Db) (reviewId : Z)
         (r r' : Review.t),
    wf db ->
    lookupReview reviewId db = Some r ->
    Review.reported r = true ->
    Review.reportReason r <> None -> Review.reporterId r <> None ->
    lookupReview reviewId (run trace db) = Some r' ->
    Review.reported r' = true /\ Review.reportReason r' <> None /\
    Review.reporterId r' <> None.
Proof.
  intros trace db reviewId r r' Hwf Hr Hrep Hreason Hwho Hr'.
  destruct (evolves_reported r r' (run_evolves trace db reviewId r r' Hwf Hr Hr') Hrep)
    as [H|(H1 & H2 & H3)]; [exact H|].
  rewrite H2, H3. repeat split; assumption.
Qed.

Lemma wf_db3 : wf db3.
Proof.
  split.
  - repeat constructor. simpl. tauto.
  - repeat constructor.
Qed.

Lemma report_never_cleared_witness :
  lookupReview 1
    (run [(no_outage, 400, CreateReview dto0);
          (no_outage, 450, AddReplyToReview 1 10 "again"%string);
          (no_outage, 500, DeleteReview 2 3)] db3) = Some review3 /\
  Review.reported review3 = true.
Proof.
  split; [reflexivity|].
  apply (report_never_cleared
           [(no_outage, 400, CreateReview dto0);
            (no_outage, 450, AddReplyToReview 1 10 "again"%string);
            (no_outage, 500, DeleteReview 2 3)] db3 1 review3 review3 wf_db3);
    try reflexivity; discriminate.
Defined.

(** ** Ratings stay in range *)

Lemma ratings_ok_write (db db' : Db) :
  ratings_ok db -> request_write db db' -> ratings_ok db'.
Proof.
  unfold ratings_ok. intros Hok Hw.
  destruct Hw as [now r Hr _ _ | now old rp Hold _ | now old reason reporter Hold
                  | r | k d]; simpl.
  - apply Forall_app. split; [exact Hok|]. constructor; [exact Hr | constructor].
  - rewrite Forall_forall in *. intros x Hx.
    apply in_map_iff in Hx. destruct Hx as [y [<- Hy]]. unfold rewriteRow.
    destruct (Review.id y =? _); [|exact (Hok y Hy)].
    simpl. apply Hok. apply (lookupReview_id _ _ _ Hold).
  - rewrite Forall_forall in *. intros x Hx.
    apply in_map_iff in Hx. destruct Hx as [y [<- Hy]]. unfold rewriteRow.
    destruct (Review.id y =? _); [|exact (Hok y Hy)].
    simpl. apply Hok. apply (lookupReview_id _ _ _ Hold).
  - rewrite Forall_forall in *. intros x Hx.
    apply filter_In in Hx. apply Hok. apply Hx.
  - exact Hok.
Qed.

Lemma ratings_ok_writes (db db' : Db) :
  ratings_ok db -> request_writes db db' -> ratings_ok db'.
Proof.
  intros Hok H. induction H as [|db da db' Hw _ IH]; [exact Hok|].
  apply IH. exact (ratings_ok_write _ _ Hok Hw).
Qed.

Lemma sumRatings_bounds (rows : list Review.t) :
  Forall (fun r => 1 <= Review.rating r <= 5) rows ->
  Z.of_nat (length rows) <= sumRatings rows <= 5 * Z.of_nat (length rows).
Proof.
  induction 1 as [|a rows Ha _ IH]; simpl length; simpl sumRatings; lia.
Qed.

Lemma average_bounds (rows : list Review.t) :
  rows <> [] ->
  Forall (fun r => 1 <= Review.rating r <= 5) rows ->
  exists q, raw_averageRating (aggregate rows) = Some q /\ (1 <= q <= 5)%Q.
Proof.
  intros Hne Hok. pose proof (sumRatings_bounds rows Hok) as Hsum.
  destruct rows as [|a rest]; [congruence|].
  eexists. split; [reflexivity|].
  assert (Hpos : Z.pos (Pos.of_nat (length (a :: rest))) = Z.of_nat (length (a :: rest)))
    by (simpl length; lia).
  unfold Qle. cbn [Qnum Qden]. split; [change (Qnum 1) with 1 | change (Qnum 5) with 5];
    change (QDen 1) with 1; change (QDen 5) with 1; lia.
Qed.

(** X11. Ratings stay in range: when every stored rating lies in 1..5, it
    still does after any sequence of requests, whatever the store rejects.
    The statistics query then computes, for every seller that has reviews, a
    mean between 1 and 5, and the raw row it answers with holds that mean
    under the name averagerating. *)
Theorem ratings_stay_in_range :
  forall (trace : list (Outage * Z * Call)) (db : Db),
    ratings_ok db ->
    ratings_ok (run trace db) /\
    forall sellerKey,
      forSeller sellerKey (reviewRepository (run trace db)) <> [] ->
      exists q,
        property "averagerating"
          (getRawOne (forSeller sellerKey (reviewRepository (run trace db)))) =
        Some (RawNumber q) /\
        (1 <= q <= 5)%Q.
Proof.
  intros trace db Hok.
  pose proof (ratings_ok_writes _ _ Hok (run_request_writes trace db)) as Hok'.
  split; [exact Hok'|].
  intros sellerKey Hne.
  set (rows := forSeller sellerKey (reviewRepository (run trace db))) in *.
  destruct (average_bounds rows Hne) as (q & Hq & Hbounds).
  { unfold ratings_ok in Hok'. rewrite Forall_forall in *.
    intros x Hx. apply Hok'. unfold rows, forSeller in Hx.
    apply filter_In in Hx. apply Hx. }
  exists q. split; [|exact Hbounds].
  unfold getRawOne. cbn [property]. rewrite Hq. reflexivity.
Qed.

Lemma ratings_stay_in_range_witness :
  ratings_ok (run busy_trace db1) /\
  exists q,
    property "averagerating"
      (getRawOne (forSeller 10 (reviewRepository (run busy_trace db1)))) =
    Some (RawNumber q) /\
    (1 <= q <= 5)%Q.
Proof.
  assert (Hok : ratings_ok db1).
  { repeat constructor; simpl; lia. }
  destruct (ratings_stay_in_range busy_trace db1 Hok) as [Hall Havg].
  split; [exact Hall|]. apply Havg. discriminate.
Defined.

(** ** What no request touches *)

Lemma request_write_profiles (db db' : Db) :
  request_write db db' ->
  userRepository db' = userRepository db /\
  map SellerProfile.id (sellerRepository db') = map SellerProfile.id (sellerRepository db) /\
  map SellerProfile.userId (sellerRepository db') =
  map SellerProfile.userId (sellerRepository db).
Proof.
  intros Hw. destruct Hw; simpl; repeat split; try reflexivity.
  - rewrite map_map. apply map_ext. intros s. apply bump_id.
  - rewrite map_map. apply map_ext. intros s. unfold bump.
    destruct (SellerProfile.id s =? sellerKey); reflexivity.
Qed.

(** X12. No sequence of requests, whatever the store rejects, edits the
    user table or adds, drops, re-keys or re-assigns a seller profile: the
    seller table keeps the same keys and owners in the same order, only
    numReviews can differ. *)
Theorem profiles_never_edited :
  forall (trace : list (Outage * Z * Call)) (db : Db),
    userRepository (run trace db) = userRepository db /\
    map SellerProfile.id (sellerRepository (run trace db)) =
    map SellerProfile.id (sellerRepository db) /\
    map SellerProfile.userId (sellerRepository (run trace db)) =
    map SellerProfile.userId (sellerRepository db).
Proof.
  intros trace db.
  pose proof (run_request_writes trace db) as H.
  induction H as [|db da db' Hw _ IH]; [repeat split|].
  destruct (request_write_profiles _ _ Hw) as (Hu & Hi & Ho).
  destruct IH as (Hu' & Hi' & Ho').
  rewrite Hu', Hi', Ho'. repeat split; assumption.
Qed.

(** ** The counter against the listing *)

Lemma run_counters (trace : list (Outage * Z * Call)) (db : Db) :
  counters_accepted trace -> wf db -> counters_ok db ->
  wf (run trace db) /\ counters_ok (run trace db).
Proof.
  revert db. induction trace as [|[[o now] c] rest IH]; intros db Hacc Hwf Hok; simpl.
  - split; assumption.
  - inversion Hacc as [|? ? Ho Hrest]; subst. simpl in Ho.
    apply IH; [exact Hrest | |].
    + exact (wf_writes _ _ Hwf (exec_writes o now c db)).
    + exact (counters_commit _ _ Hwf Hok (exec_commit o now c db Ho)).
Qed.

(** X13. The counter and the listing agree over whole sequences: starting
    from a well-formed store whose counters match, after any sequence of
    requests in which no counter update was rejected, numReviews of every
    seller row equals the total that getSellerReviews answers for that
    seller's key, on whatever page and limit it resolves. *)
Theorem numReviews_equals_listed_total :
  forall (trace : list (Outage * Z * Call)) (db : Db),
    counters_accepted trace -> wf db -> counters_ok db ->
    forall s, In s (sellerRepository (run trace db)) ->
      forall page limit res,
        getSellerReviews (SellerProfile.id s) page limit (run trace db) = Ok res ->
        SellerProfile.numReviews s = total res.
Proof.
  intros trace db Hacc Hwf Hok s Hs page limit res H.
  destruct (run_counters trace db Hacc Hwf Hok) as [_ Hok'].
  rewrite (Hok' s Hs). unfold getSellerReviews in H.
  destruct (skipTake _ _ _) as [rows|m]; [|discriminate].
  inversion H. reflexivity.
Qed.

Lemma numReviews_equals_listed_total_witness :
  sellerRepository (run calm_trace db0) = [SellerProfile.mk 10 7 2] /\
  exists res,
    getSellerReviews 10 1 5 (run calm_trace db0) = Ok res /\ total res = 2.
Proof.
  split; [reflexivity|].
  assert (Hacc : counters_accepted calm_trace) by (repeat constructor).
  eexists. split; [reflexivity|].
  symmetry.
  exact (numReviews_equals_listed_total calm_trace db0 Hacc wf_db0 counters_ok_db0
           (SellerProfile.mk 10 7 2) (or_introl eq_refl) 1 5 _ eq_refl).
Defined.

(** ** The listing after a new review *)

Lemma forSeller_snoc (k : Z) (rows : list Review.t) (r : Review.t) :
  forSeller k (rows ++ [r]) =
  forSeller k rows ++ (if Review.seller r =? k then [r] else []).
Proof. unfold forSeller. rewrite filter_app. reflexivity. Qed.

(** X14. A createReview that resolves shows in the listing of its seller
    only: every getSellerReviews request for that seller that resolved before
    resolves after it with a total one higher (and hasMore computed from it),
    and every request for another seller key is answered exactly as before. *)
Theorem createReview_updates_listing :
  forall (o : Outage) (now : Z) (data : CreateReviewDto.t) (db db' : Db)
         (r : ReviewObject),
    createReview o now data db = (db', Ok r) ->
    let k := Review.seller (entity r) in
    (forall page limit res,
       getSellerReviews k page limit db = Ok res ->
       exists res',
         getSellerReviews k page limit db' = Ok res' /\
         total res' = total res + 1 /\
         hasMore res' = (total res + 1 >? page * limit)) /\
    (forall j page limit,
       j <> k -> getSellerReviews j page limit db' = getSellerReviews j page limit db).
Proof.
  intros o now data db db' r H k.
  apply createReview_ok_inv in H.
  destruct H as (s & u & kk & _ & _ & _ & _ & _ & _ & Hr & ->).
  assert (Hk : k = SellerProfile.id s).
  { subst k r. simpl. apply reviewOf_seller. }
  set (new := stamp (nextReviewId db) now (entity (reviewOf s u data))).
  assert (Hseller : Review.seller new = SellerProfile.id s).
  { subst new. rewrite reviewOf_entity. reflexivity. }
  change (reviewRepository
            (counted (SellerProfile.id s) 1
               (inserted now (entity (reviewOf s u data)) db)))
    with (reviewRepository db ++ [new]) in *.
  split.
  - intros page limit res Hres. unfold getSellerReviews in *.
    change (reviewRepository
              (counted (SellerProfile.id s) 1
                 (inserted now (entity (reviewOf s u data)) db)))
      with (reviewRepository db ++ [new]).
    rewrite forSeller_snoc, Hseller, Hk, Z.eqb_refl.
    rewrite Hk in Hres.
    unfold skipTake in *.
    destruct ((page - 1) * limit <? 0); [discriminate|].
    destruct (limit <? 0); [discriminate|].
    inversion Hres. cbn [total hasMore].
    eexists. split; [reflexivity|]. cbn [total hasMore].
    rewrite length_app. simpl length.
    replace (Z.of_nat (length (forSeller (SellerProfile.id s) (reviewRepository db)) + 1))
      with (Z.of_nat (length (forSeller (SellerProfile.id s) (reviewRepository db))) + 1)
      by lia.
    split; reflexivity.
  - intros j page limit Hj. unfold getSellerReviews.
    change (reviewRepository
              (counted (SellerProfile.id s) 1
                 (inserted now (entity (reviewOf s u data)) db)))
      with (reviewRepository db ++ [new]).
    rewrite forSeller_snoc, Hseller.
    destruct (Z.eqb_spec (SellerProfile.id s) j) as [E|_]; [congruence|].
    rewrite app_nil_r. reflexivity.
Qed.

Lemma createReview_updates_listing_witness :
  (exists res',
     getSellerReviews 10 1 5 db1 = Ok res' /\
     total res' = 0 + 1 /\ hasMore res' = (0 + 1 >? 1 * 5)) /\
  getSellerReviews 11 1 5 db1 = getSellerReviews 11 1 5 db0.
Proof.
  destruct (createReview_updates_listing no_outage 100 dto0 db0 db1
              (mkObject review1 (Some 30) None) eq_refl) as (Hown & Hother).
  split.
  - exact (Hown 1 5 (mkPage [] 0 false) eq_refl).
  - apply Hother. simpl. lia.
Defined.

(** ** Walking the pages *)

Lemma getSellerReviews_ok (sellerKey page limit : Z) (db : Db) :
  1 <= page -> 1 <= limit ->
  getSellerReviews sellerKey page limit db =
  Ok (mkPage
        (firstn (Z.to_nat limit)
           (skipn (Z.to_nat ((page - 1) * limit))
              (orderByCreatedAtDesc (forSeller sellerKey (reviewRepository db)))))
        (reviewCount sellerKey db)
        (reviewCount sellerKey db >? page * limit)).
Proof.
  intros Hpage Hlimit. unfold getSellerReviews.
  rewrite skipTake_positive; [reflexivity | nia | exact Hlimit].
Qed.





Lemma firstn_add_skipn {A : Type} (a b : nat) (l : list A) :
  firstn (a + b) l = firstn a l ++ firstn b (skipn a l).
Proof.
  revert l. induction a as [|a IH]; intros l; [reflexivity|].
  destruct l as [|x l]; simpl.
  - rewrite firstn_nil. reflexivity.
  - rewrite IH. reflexivity.
Qed.

Lemma pageRows_slice (sellerKey limit : Z) (db : Db) (n : nat) :
  1 <= limit ->
  pageRows sellerKey (Z.of_nat (S n)) limit db =
  firstn (Z.to_nat limit)
    (skipn (n * Z.to_nat limit)
       (orderByCreatedAtDesc (forSeller sellerKey (reviewRepository db)))).
Proof.
  intros Hlimit. unfold pageRows.
  rewrite getSellerReviews_ok by lia. cbn [reviews].
  replace (Z.to_nat ((Z.of_nat (S n) - 1) * limit)) with (n * Z.to_nat limit)%nat by nia.
  reflexivity.
Qed.

Lemma pages_firstn (sellerKey limit : Z) (db : Db) (n : nat) :
  1 <= limit ->
  flat_map (fun p => pageRows sellerKey (Z.of_nat p) limit db) (seq 1 n) =
  firstn (n * Z.to_nat limit)
    (orderByCreatedAtDesc (forSeller sellerKey (reviewRepository db))).
Proof.
  intros Hlimit. induction n as [|n IH]; [reflexivity|].
  rewrite seq_S, flat_map_app, IH. cbn [flat_map]. rewrite app_nil_r.
  change (1 + n)%nat with (S n).
  rewrite (pageRows_slice sellerKey limit db n Hlimit).
  rewrite <- firstn_add_skipn. f_equal. lia.
Qed.






(** ** What a page can contain *)

Lemma in_firstn_skipn {A : Type} (n k : nat) (l : list A) (x : A) :
  In x (firstn n (skipn k l)) -> In x l.
Proof.
  intros H. rewrite <- (firstn_skipn k l). apply in_or_app. right.
  rewrite <- (firstn_skipn n (skipn k l)). apply in_or_app. left. exact H.
Qed.

Lemma NoDup_firstn {A : Type} (n : nat) (l : list A) : NoDup l -> NoDup (firstn n l).
Proof.
  intros H. rewrite <- (firstn_skipn n l) in H. exact (NoDup_app_remove_r _ _ H).
Qed.

Lemma orderByCreatedAtDesc_NoDup (sellerKey : Z) (db : Db) :
  wf db ->
  NoDup (map Review.id (orderByCreatedAtDesc (forSeller sellerKey (reviewRepository db)))).
Proof.
  intros [Hnd _].
  apply (Permutation_NoDup
           (Permutation_map Review.id
              (orderByCreatedAtDesc_perm (forSeller sellerKey (reviewRepository db))))).
  unfold forSeller. apply NoDup_map_filter. exact Hnd.
Qed.

(** X18. A page never shows anything but stored reviews of the seller asked
    for, whatever page and limit are passed; and on a well-formed store, for a
    positive limit, no review id appears twice on the pages 1..n taken
    together. *)
Theorem pages_show_only_the_sellers_reviews :
  forall (sellerKey limit : Z) (db : Db),
    (forall page x,
       In x (pageRows sellerKey page limit db) ->
       In x (reviewRepository db) /\ Review.seller x = sellerKey) /\
    (wf db -> 1 <= limit ->
     forall n,
       NoDup (map Review.id
                (flat_map (fun p => pageRows sellerKey (Z.of_nat p) limit db) (seq 1 n)))).
Proof.
  intros sellerKey limit db. split.
  - intros page x. unfold pageRows, getSellerReviews, skipTake.
    destruct ((page - 1) * limit <? 0); [intros []|].
    destruct (limit <? 0); [intros []|].
    cbn [reviews]. intros Hx.
    assert (In x (orderByCreatedAtDesc (forSeller sellerKey (reviewRepository db))))
      as Hordered.
    { destruct (limit =? 0).
      - rewrite <- (firstn_skipn (Z.to_nat ((page - 1) * limit))).
        apply in_or_app. right. exact Hx.
      - apply in_firstn_skipn in Hx. exact Hx. }
    clear Hx. rename Hordered into Hx.
    apply (Permutation_in x
             (Permutation_sym
                (orderByCreatedAtDesc_perm (forSeller sellerKey (reviewRepository db)))))
      in Hx.
    unfold forSeller in Hx. apply filter_In in Hx. destruct Hx as [Hin Hs].
    split; [exact Hin | lia].
  - intros Hwf Hlimit n. rewrite (pages_firstn sellerKey limit db n Hlimit).
    rewrite <- firstn_map. apply NoDup_firstn.
    apply orderByCreatedAtDesc_NoDup. exact Hwf.
Qed.

Lemma wf_db12 : wf db12.
Proof.
  split.
  - unfold db12, reviewAt. simpl.
    repeat (constructor; [simpl; intuition lia|]). constructor.
  - repeat constructor.
Qed.

Lemma pages_show_only_the_sellers_reviews_witness :
  Review.seller (reviewAt 12 70) = 10 /\
  NoDup (map Review.id (flat_map (fun p => pageRows 10 (Z.of_nat p) 5 db12) (seq 1 3))).
Proof.
  destruct (pages_show_only_the_sellers_reviews 10 5 db12) as [Hown Hdistinct].
  split.
  - apply (Hown 2 (reviewAt 12 70)). simpl. tauto.
  - apply Hdistinct; [exact wf_db12 | lia].
Defined.

(** ** Partial writes *)

(** X19. The only partial write createReview and deleteReview can leave is
    the one of a rejected counter update: when either call throws, the store is
    as it was, unless the counter update was rejected, in which case exactly the
    insert (or the removal) has been applied.  In particular both are all or
    nothing whenever the counter update is accepted. *)
Theorem partial_write_only_at_counter :
  forall (o : Outage) (now : Z) (db : Db),
    (forall data m,
       snd (createReview o now data db) = Err m ->
       fst (createReview o now data db) = db \/
       (o UpdateCounter = true /\ m = queryFailed /\
        exists r, fst (createReview o now data db) = inserted now r db)) /\
    (forall reviewId userId m,
       snd (deleteReview o reviewId userId db) = Err m ->
       fst (deleteReview o reviewId userId db) = db \/
       (o UpdateCounter = true /\ m = queryFailed /\
        exists r, lookupReview reviewId db = Some r /\
                  fst (deleteReview o reviewId userId db) = removed r db)).
Proof.
  intros o now db. split.
  - intros data m.
    destruct (createReview o now data db) as [db' res] eqn:H. simpl.
    unfold createReview in H.
    destruct ((CreateReviewDto.rating data <? 1) || (CreateReviewDto.rating data >? 5));
      [inversion H; left; reflexivity|].
    unfold bind at 1, findSellerByUserId in H.
    destruct (find _ (sellerRepository db)) as [s|]; [|inversion H; left; reflexivity].
    unfold bind at 1, findUser in H.
    destruct (find _ (userRepository db)) as [u|]; [|inversion H; left; reflexivity].
    destruct (orElse _ _); [|inversion H; left; reflexivity].
    unfold_task.
    destruct (o InsertReview); [inversion H; left; reflexivity|].
    destruct (o UpdateCounter); inversion H; subst.
    + intros Hm. inversion Hm; subst. right.
      repeat split. eexists. reflexivity.
    + discriminate.
  - intros reviewId userId m.
    destruct (deleteReview o reviewId userId db) as [db' res] eqn:H. simpl.
    destruct (lookupReview reviewId db) as [r|] eqn:Hr.
    2:{ unfold deleteReview, bind, findReview in H. rewrite Hr in H.
        destruct (inKeyRange reviewId); inversion H; left; reflexivity. }
    rewrite (deleteReview_found _ _ _ _ _ Hr) in H. unfold_task.
    destruct (o RemoveReview); [inversion H; left; reflexivity|].
    simpl in H. destruct (o UpdateCounter); inversion H; subst.
    + intros Hm. inversion Hm; subst. right.
      repeat split. exists r. split; reflexivity.
    + discriminate.
Qed.

Lemma partial_write_only_at_counter_witness :
  fst (createReview (fun w => match w with InsertReview => true | _ => false end)
         100 dto0 db0) = db0 /\
  exists r, fst (deleteReview counter_update_fails 1 30 db1) = removed r db1.
Proof.
  destruct (partial_write_only_at_counter
              (fun w => match w with InsertReview => true | _ => false end) 100 db0)
    as [Hcreate _].
  destruct (partial_write_only_at_counter counter_update_fails 100 db1) as [_ Hdelete].
  split.
  - destruct (Hcreate dto0 queryFailed eq_refl) as [Hsame|(Hc & _)];
      [exact Hsame | discriminate Hc].
  - destruct (Hdelete 1 30 queryFailed eq_refl) as [Hsame|(_ & _ & r & _ & Hr)].
    + discriminate Hsame.
    + exists r. exact Hr.
Defined.

(** * The sell-part form: image selection *)

Section ImageSelection.
Import SellPartModal.
Variable createObjectURL : File -> string.

Lemma last_cons {A : Type} (x d : A) (l : list A) : last (x :: l) d = last l x.
Proof.
  revert x d. induction l as [|y l IH]; intros x d; [reflexivity|].
  change (last (x :: y :: l) d) with (last (y :: l) d).
  rewrite (IH y d), (IH y x). reflexivity.
Qed.

Lemma fold_visit (files : list File) (acc : Picked) :
  fold_left (visit createObjectURL) files acc =
  mkPicked (validFiles acc ++ filter accepted files)
           (validPreviews acc ++ map createObjectURL (filter accepted files))
           (last (errorsOf files) (lastError acc)).
Proof.
  revert acc. induction files as [|a files IH]; intros acc.
  - simpl. rewrite !app_nil_r. destruct acc; reflexivity.
  - cbn [fold_left]. rewrite IH. unfold visit, accepted, errorsOf.
    cbn [filter flat_map].
    destruct (validateImage a) as [e|] eqn:Ea.
    + cbn [validFiles validPreviews lastError app].
      rewrite last_cons. reflexivity.
    + cbn [validFiles validPreviews lastError app map].
      rewrite <- !app_assoc. reflexivity.
Qed.

Lemma accepted_valid (files : list File) :
  Forall (fun f => validateImage f = None) (filter accepted files).
Proof.
  apply Forall_forall. intros f Hf. apply filter_In in Hf. destruct Hf as [_ Hf].
  unfold accepted in Hf. destruct (validateImage f); [discriminate | reflexivity].
Qed.

Lemma filter_length_le {A : Type} (p : A -> bool) (l : list A) :
  (length (filter p l) <= length l)%nat.
Proof.
  induction l as [|a l IH]; simpl; [lia|]. destruct (p a); simpl; lia.
Qed.

(** X20. What a selection does.  More than five files: nothing is taken and
    the too-many message is shown.  Otherwise every file is checked on its own:
    the files that pass replace the previous selection (in the order picked,
    one preview each) even when other files of the same pick were refused, the
    message shown is that of the last refused file (none when all pass), and
    when no file passes the previous selection stays. *)
Theorem handleImageChange_keeps_what_passes :
  forall (files : list File) (st : State),
    let kept := filter accepted files in
    let st' := handleImageChange createObjectURL files st in
    (MAX_FILES < Z.of_nat (length files) ->
     st' = mkState (images st) (previews st) tooMany) /\
    (Z.of_nat (length files) <= MAX_FILES ->
     imageError st' = last (errorsOf files) ""%string /\
     (kept <> [] -> images st' = kept /\ previews st' = map createObjectURL kept) /\
     (kept = [] -> images st' = images st /\ previews st' = previews st)).
Proof.
  intros files st kept st'. subst st'. unfold handleImageChange. split.
  - intros Hmany. destruct (Z.gtb_spec (Z.of_nat (length files)) MAX_FILES); [reflexivity | lia].
  - intros Hfew. destruct (Z.gtb_spec (Z.of_nat (length files)) MAX_FILES); [lia|].
    rewrite fold_visit. cbn [validFiles validPreviews lastError app]. fold kept.
    destruct kept as [|f rest] eqn:Ek.
    + simpl. split; [reflexivity|]. split.
      * intros Hne. congruence.
      * intros _. split; reflexivity.
    + cbn [length]. destruct (Z.gtb_spec (Z.of_nat (S (length rest))) 0); [|lia].
      cbn [images previews imageError]. split; [reflexivity|]. split.
      * intros _. split; reflexivity.
      * intros Hnil. discriminate.
Qed.

Lemma withoutIndexFrom_spec {A : Type} (l : list A) (i index : Z) :
  withoutIndexFrom i index l =
  if (i <=? index) && (index <? i + Z.of_nat (length l))
  then firstn (Z.to_nat (index - i)) l ++ skipn (S (Z.to_nat (index - i))) l
  else l.
Proof.
  revert i. induction l as [|x l IH]; intros i.
  - simpl. destruct ((i <=? index) && (index <? i + 0)); [|reflexivity].
    rewrite firstn_nil. reflexivity.
  - cbn [withoutIndexFrom]. rewrite IH. cbn [length].
    destruct (Z.eqb_spec i index) as [E|E].
    + subst. rewrite Z.sub_diag. simpl firstn. simpl skipn.
      replace (index <=? index) with true by (symmetry; apply Z.leb_le; lia).
      replace (index <? index + Z.of_nat (S (length l))) with true
        by (symmetry; apply Z.ltb_lt; lia).
      replace (index + 1 <=? index) with false by (symmetry; apply Z.leb_gt; lia).
      reflexivity.
    + destruct (Z.leb_spec (i + 1) index) as [H1|H1];
        destruct (Z.ltb_spec index (i + 1 + Z.of_nat (length l))) as [H2|H2];
        destruct (Z.leb_spec i index) as [H3|H3];
        destruct (Z.ltb_spec index (i + Z.of_nat (S (length l)))) as [H4|H4];
        try lia; try reflexivity.
      cbn [andb].
      replace (Z.to_nat (index - i)) with (S (Z.to_nat (index - (i + 1)))) by lia.
      reflexivity.
Qed.

Lemma withoutIndexFrom_length {A B : Type} (l1 : list A) (l2 : list B) (i index : Z) :
  length l1 = length l2 ->
  length (withoutIndexFrom i index l1) = length (withoutIndexFrom i index l2).
Proof.
  revert l2 i. induction l1 as [|x l1 IH]; intros [|y l2] i Hlen;
    try discriminate; [reflexivity|].
  cbn [withoutIndexFrom]. injection Hlen as Hlen.
  destruct (i =? index); simpl; rewrite (IH l2 (i + 1) Hlen); reflexivity.
Qed.

Lemma withoutIndexFrom_incl {A : Type} (l : list A) (i index : Z) (x : A) :
  In x (withoutIndexFrom i index l) -> In x l.
Proof.
  revert i. induction l as [|y l IH]; intros i; [intros []|].
  cbn [withoutIndexFrom]. destruct (i =? index).
  - intros H. right. exact (IH _ H).
  - intros [H|H]; [left; exact H | right; exact (IH _ H)].
Qed.

Lemma withoutIndexFrom_shorter {A : Type} (l : list A) (i index : Z) :
  (length (withoutIndexFrom i index l) <= length l)%nat.
Proof.
  revert i. induction l as [|y l IH]; intros i; [simpl; lia|].
  cbn [withoutIndexFrom]. destruct (i =? index); simpl; specialize (IH (i + 1)); lia.
Qed.

(** X21. removeImage filters the images and the previews by position, each
    list on its own.  With an index inside a list it takes out exactly the
    element at that position and keeps the others in order; with a negative
    index, or one at or past the end of a list, it leaves that list as it is,
    and the whole state when that holds of both lists.  The message shown is
    left as it is. *)
Theorem removeImage_takes_out_one :
  forall (index : Z) (st : State),
    let n := Z.to_nat index in
    (0 <= index < Z.of_nat (length (images st)) ->
     images (removeImage index st) = firstn n (images st) ++ skipn (S n) (images st)) /\
    (0 <= index < Z.of_nat (length (previews st)) ->
     previews (removeImage index st) =
     firstn n (previews st) ++ skipn (S n) (previews st)) /\
    (index < 0 \/ Z.of_nat (length (images st)) <= index ->
     images (removeImage index st) = images st) /\
    (index < 0 \/ Z.of_nat (length (previews st)) <= index ->
     previews (removeImage index st) = previews st) /\
    (index < 0 \/
     (Z.of_nat (length (images st)) <= index /\
      Z.of_nat (length (previews st)) <= index) ->
     removeImage index st = st) /\
    imageError (removeImage index st) = imageError st.
Proof.
  intros index st n. subst n.
  assert (Himages : index < 0 \/ Z.of_nat (length (images st)) <= index ->
                    withoutIndexFrom 0 index (images st) = images st).
  { intros H. rewrite withoutIndexFrom_spec, Z.add_0_l.
    destruct (Z.leb_spec 0 index); [|reflexivity].
    destruct (Z.ltb_spec index (Z.of_nat (length (images st)))); [lia | reflexivity]. }
  assert (Hpreviews : index < 0 \/ Z.of_nat (length (previews st)) <= index ->
                      withoutIndexFrom 0 index (previews st) = previews st).
  { intros H. rewrite withoutIndexFrom_spec, Z.add_0_l.
    destruct (Z.leb_spec 0 index); [|reflexivity].
    destruct (Z.ltb_spec index (Z.of_nat (length (previews st)))); [lia | reflexivity]. }
  unfold removeImage. cbn [images previews imageError].
  split; [|split; [|split; [|split; [|split]]]].
  - intros [H0 H1]. rewrite withoutIndexFrom_spec, Z.sub_0_r, Z.add_0_l.
    destruct (Z.leb_spec 0 index); [|lia].
    destruct (Z.ltb_spec index (Z.of_nat (length (images st)))); [reflexivity | lia].
  - intros [H0 H1]. rewrite withoutIndexFrom_spec, Z.sub_0_r, Z.add_0_l.
    destruct (Z.leb_spec 0 index); [|lia].
    destruct (Z.ltb_spec index (Z.of_nat (length (previews st)))); [reflexivity | lia].
  - exact Himages.
  - exact Hpreviews.
  - intros H. rewrite Himages, Hpreviews by lia. destruct st; reflexivity.
  - reflexivity.
Qed.

Lemma selection_ok_handle (st : State) (e : Event) :
  selection_ok st -> selection_ok (handle createObjectURL st e).
Proof.
  intros (Hvalid & Hmax & Hlen). destruct e as [files|index]; cbn [handle].
  - unfold handleImageChange.
    destruct (Z.gtb_spec (Z.of_nat (length files)) MAX_FILES) as [Hmany|Hfew].
    { repeat split; assumption. }
    rewrite fold_visit. cbn [validFiles validPreviews lastError app].
    destruct (Z.gtb_spec (Z.of_nat (length (filter accepted files))) 0).
    + repeat split; cbn [images previews].
      * apply accepted_valid.
      * pose proof (filter_length_le accepted files). lia.
      * apply length_map.
    + repeat split; assumption.
  - unfold removeImage. repeat split; cbn [images previews].
    + rewrite Forall_forall in *. intros f Hf. apply Hvalid.
      exact (withoutIndexFrom_incl _ _ _ _ Hf).
    + pose proof (withoutIndexFrom_shorter (images st) 0 index). lia.
    + apply withoutIndexFrom_length. exact Hlen.
Qed.

(** X22. Whatever the user picks and removes, in any order, starting from
    the empty form: the selection never holds more than five images, never an
    image of a refused type or above 5 MB, and always exactly one preview per
    image. *)
Theorem selection_always_ok :
  forall (events : list Event),
    selection_ok (fold_left (handle createObjectURL) events initial).
Proof.
  intros events.
  assert (Hgen : forall st, selection_ok st ->
                   selection_ok (fold_left (handle createObjectURL) events st)).
  { induction events as [|e events IH]; intros st Hst; [exact Hst|].
    cbn [fold_left]. apply IH. apply selection_ok_handle. exact Hst. }
  apply Hgen. repeat split; simpl; [constructor | unfold MAX_FILES; lia].
Qed.

End ImageSelection.

Lemma handleImageChange_keeps_what_passes_witness :
  SellPartModal.images
    (SellPartModal.handleImageChange SellPartModal.blobUrl
       [SellPartModal.jpeg 100; SellPartModal.gif 100; SellPartModal.jpeg 6000000]
       SellPartModal.initial) = [SellPartModal.jpeg 100] /\
  SellPartModal.imageError
    (SellPartModal.handleImageChange SellPartModal.blobUrl
       [SellPartModal.jpeg 100; SellPartModal.gif 100; SellPartModal.jpeg 6000000]
       SellPartModal.initial) = SellPartModal.tooLarge.
Proof.
  destruct (handleImageChange_keeps_what_passes SellPartModal.blobUrl
              [SellPartModal.jpeg 100; SellPartModal.gif 100; SellPartModal.jpeg 6000000]
              SellPartModal.initial) as [_ Hfew].
  destruct Hfew as (Herr & Hkept & _); [unfold SellPartModal.MAX_FILES; simpl; lia|].
  destruct Hkept as [Himg _]; [discriminate|].
  split; [exact Himg | exact Herr].
Defined.

Lemma removeImage_takes_out_one_witness :
  SellPartModal.removeImage 1
    (SellPartModal.mkState
       [SellPartModal.jpeg 1; SellPartModal.jpeg 2; SellPartModal.jpeg 3]
       ["a"%string; "b"%string; "c"%string] "kept"%string) =
  SellPartModal.mkState
    [SellPartModal.jpeg 1; SellPartModal.jpeg 3]
    ["a"%string; "c"%string] "kept"%string /\
  SellPartModal.removeImage 3
    (SellPartModal.mkState
       [SellPartModal.jpeg 1; SellPartModal.jpeg 2; SellPartModal.jpeg 3]
       ["a"%string; "b"%string; "c"%string] "kept"%string) =
  SellPartModal.mkState
    [SellPartModal.jpeg 1; SellPartModal.jpeg 2; SellPartModal.jpeg 3]
    ["a"%string; "b"%string; "c"%string] "kept"%string /\
  SellPartModal.previews
    (SellPartModal.removeImage (-1)
       (SellPartModal.mkState
          [SellPartModal.jpeg 1; SellPartModal.jpeg 2; SellPartModal.jpeg 3]
          ["a"%string; "b"%string; "c"%string] "kept"%string)) =
  ["a"%string; "b"%string; "c"%string].
Proof.
  pose (st := SellPartModal.mkState
                [SellPartModal.jpeg 1; SellPartModal.jpeg 2; SellPartModal.jpeg 3]
                ["a"%string; "b"%string; "c"%string] "kept"%string).
  fold st.
  destruct (removeImage_takes_out_one 1 st) as (Himg & Hprev & _ & _ & _ & Herr).
  destruct (removeImage_takes_out_one 3 st) as (_ & _ & _ & _ & Hout & _).
  destruct (removeImage_takes_out_one (-1) st) as (_ & _ & _ & Hneg & _).
  split; [|split].
  - specialize (Himg ltac:(simpl; lia)). specialize (Hprev ltac:(simpl; lia)).
    destruct (SellPartModal.removeImage 1 st) as [imgs prevs err].
    cbn [SellPartModal.images SellPartModal.previews SellPartModal.imageError] in *.
    rewrite Himg, Hprev, Herr. reflexivity.
  - apply Hout. right. simpl. lia.
  - apply Hneg. left. lia.
Defined.
